(** * Land-use server: a shallow embedding of [server.js]

    The file models the Express handlers of [server.js] as functions over an
    explicit world (the PostgreSQL table behind the connection pool, the
    upload directory, a schedule of database faults) and proves the
    request/response contracts of the land-use, filter, area and upload
    routes.

    Conventions.
    - A JavaScript string is a [string]; a character is one code unit in the
      range 0..255.
    - A JavaScript number that comes out of [JSON.parse] or [parseInt] is kept
      as an integer ([Z]); the handlers only test such numbers against zero
      and print them.  The area figures are IEEE doubles ([float]).
    - [undefined] is [None] in an [option json]; [null] is [JNull].
    - What the database driver and PostGIS do with a value ([pg_text],
      [ST_Area]) stays a parameter of the development. *)

From Stdlib Require Import ZArith List String Ascii Bool Lia PrimFloat.
From Stdlib Require Import DecimalString DecimalPos Sorting.Mergesort Sorting.Sorted Permutation.
From stdpp Require Import gmap strings.
Import ListNotations.

Set Warnings "-register-all".

Local Open Scope string_scope.
Local Open Scope Z_scope.

(* ===================================================================== *)
(** ** JavaScript values that [JSON.parse] can produce *)
(* ===================================================================== *)

Inductive json : Type :=
| JNull
| JBool (b : bool)
| JNum (n : Z)
| JStr (s : string)
| JArr (elements : list json)
| JObj (members : list (string * json)).

(** An exception object; the handlers only ever read [e.message]. *)
Record exn : Type := Error { message : string }.

(** A JavaScript value as the handlers see it: [None] is [undefined]. *)
Definition value : Type := option json.

(** ToBoolean on a value: [undefined], [null], [false], [0] and the empty
    string are falsy, everything else (every object and array) is truthy. *)
Definition truthy (v : value) : bool :=
  match v with
  | None => false
  | Some JNull => false
  | Some (JBool b) => b
  | Some (JNum n) => negb (n =? 0)
  | Some (JStr s) => negb (String.eqb s "")
  | Some (JArr _) => true
  | Some (JObj _) => true
  end.

(** ToBoolean on a string-or-null such as [geomJSON]. *)
Definition truthy_string (s : option string) : bool :=
  match s with
  | None => false
  | Some s => negb (String.eqb s "")
  end.

(** Own-property lookup in a parsed object (keys are unique after
    [JSON.parse]; the first binding is the property). *)
Fixpoint lookup_member (k : string) (members : list (string * json)) : value :=
  match members with
  | [] => None
  | (k', v) :: rest => if String.eqb k k' then Some v else lookup_member k rest
  end.

(** [o.k] for the keys the server reads ([type], [features], [geometry],
    [properties]): reading a property of [null] throws a [TypeError]; an
    object yields its member; a boolean, number, string or array has no such
    property. *)
Definition get (o : json) (k : string) : exn + value :=
  match o with
  | JNull =>
      inl (Error ("Cannot read properties of null (reading '" ++ k ++ "')"))
  | JObj members => inr (lookup_member k members)
  | _ => inr None
  end.

(** [v?.k]: the optional chain stops at [undefined] and [null]. *)
Definition get_optional (v : value) (k : string) : value :=
  match v with
  | None => None
  | Some JNull => None
  | Some (JObj members) => lookup_member k members
  | Some _ => None
  end.

(** [v === s] against a string literal. *)
Definition strict_equal_string (v : value) (s : string) : bool :=
  match v with
  | Some (JStr s') => String.eqb s' s
  | _ => false
  end.

(** [Array.isArray(v)] *)
Definition Array_isArray (v : value) : bool :=
  match v with
  | Some (JArr _) => true
  | _ => false
  end.

(** Decimal text of an integer, as [Number.prototype.toString] prints it. *)
Definition number_to_string (n : Z) : string :=
  NilZero.string_of_int (Z.to_int n).

Definition hex_digit (n : nat) : ascii :=
  match n with
  | 0 => "0" | 1 => "1" | 2 => "2" | 3 => "3" | 4 => "4" | 5 => "5"
  | 6 => "6" | 7 => "7" | 8 => "8" | 9 => "9" | 10 => "a" | 11 => "b"
  | 12 => "c" | 13 => "d" | 14 => "e" | _ => "f"
  end%nat%char.

(** QuoteJSONString: the escapes of one code unit. *)
Definition quote_char (c : ascii) : string :=
  let n := nat_of_ascii c in
  if Nat.eqb n 34 then "\" ++ String c ""
  else if Nat.eqb n 92 then "\\"
  else if Nat.eqb n 8 then "\b"
  else if Nat.eqb n 12 then "\f"
  else if Nat.eqb n 10 then "\n"
  else if Nat.eqb n 13 then "\r"
  else if Nat.eqb n 9 then "\t"
  else if Nat.ltb n 32 then
    "\u00" ++ String (hex_digit (Nat.div n 16)) (String (hex_digit (Nat.modulo n 16)) "")
  else String c "".

Fixpoint quote_chars (s : string) : string :=
  match s with
  | EmptyString => ""
  | String c rest => quote_char c ++ quote_chars rest
  end.

Definition quote (s : string) : string :=
  String (ascii_of_nat 34) (quote_chars s ++ String (ascii_of_nat 34) "").

(** [JSON.stringify(j)] without indentation. *)
Fixpoint JSON_stringify (j : json) : string :=
  match j with
  | JNull => "null"
  | JBool true => "true"
  | JBool false => "false"
  | JNum n => number_to_string n
  | JStr s => quote s
  | JArr elements =>
      "[" ++
      (fix items (l : list json) : string :=
         match l with
         | [] => ""
         | x :: rest =>
             match rest with
             | [] => JSON_stringify x
             | _ :: _ => JSON_stringify x ++ "," ++ items rest
             end
         end) elements ++ "]"
  | JObj members =>
      "{" ++
      (fix fields (l : list (string * json)) : string :=
         match l with
         | [] => ""
         | (k, x) :: rest =>
             match rest with
             | [] => quote k ++ ":" ++ JSON_stringify x
             | _ :: _ => quote k ++ ":" ++ JSON_stringify x ++ "," ++ fields rest
             end
         end) members ++ "}"
  end.

(* ===================================================================== *)
(** ** Query-string values and [parseInt] *)
(* ===================================================================== *)

(** A value of [req.query]: a string, or an array or object of such. *)
Inductive qval : Type :=
| QStr (s : string)
| QArr (elements : list qval)
| QObj (members : list (string * qval)).

(** ToString, which [parseInt] applies to its argument first. *)
Fixpoint ToString (q : qval) : string :=
  match q with
  | QStr s => s
  | QArr elements =>
      (fix join (l : list qval) : string :=
         match l with
         | [] => ""
         | x :: rest =>
             match rest with
             | [] => ToString x
             | _ :: _ => ToString x ++ "," ++ join rest
             end
         end) elements
  | QObj _ => "[object Object]"
  end.

(** ToString of [req.query.k], which is [undefined] when the key is absent. *)
Definition ToString_query (q : option qval) : string :=
  match q with
  | None => "undefined"
  | Some q => ToString q
  end.

(** White space that [parseInt] skips (tab, LF, VT, FF, CR, space, NBSP). *)
Definition is_white_space (c : ascii) : bool :=
  let n := nat_of_ascii c in
  (Nat.leb 9 n && Nat.leb n 13) || Nat.eqb n 32 || Nat.eqb n 160.

Fixpoint trim_start (s : string) : string :=
  match s with
  | String c rest => if is_white_space c then trim_start rest else s
  | EmptyString => s
  end.

Definition digit_value (c : ascii) : option Z :=
  let n := nat_of_ascii c in
  if (Nat.leb 48 n && Nat.leb n 57)%bool then Some (Z.of_nat n - 48) else None.

(** The longest prefix of decimal digits, read left to right: [acc] is the
    value so far, [seen] tells whether a digit was read. *)
Fixpoint parse_digits (s : string) (acc : Z) (seen : bool) : option Z :=
  match s with
  | String c rest =>
      match digit_value c with
      | Some d => parse_digits rest (10 * acc + d) true
      | None => if seen then Some acc else None
      end
  | EmptyString => if seen then Some acc else None
  end.

(** [parseInt(s, 10)]; [None] is [NaN]. *)
Definition parseInt (s : string) : option Z :=
  match trim_start s with
  | String c rest =>
      if Ascii.eqb c "-" then
        match parse_digits rest 0 false with
        | Some n => Some (- n)
        | None => None
        end
      else if Ascii.eqb c "+" then parse_digits rest 0 false
      else parse_digits (String c rest) 0 false
  | EmptyString => None
  end.

(** [n || d] on a number: [NaN] and [0] are falsy. *)
Definition or_default (n : option Z) (d : Z) : Z :=
  match n with
  | Some n => if n =? 0 then d else n
  | None => d
  end.

(* ===================================================================== *)
(** ** The [landuse] table *)
(* ===================================================================== *)

(** One row of [landuse]: the serial [id], the geometry (kept as the GeoJSON
    text it was built from) and the category label.  [None] is SQL [NULL]. *)
Record row : Type := Row {
  row_id : Z;
  row_geom : option string;
  row_type : option string
}.

Definition table : Type := list row.

(** [ORDER BY id] *)
Module RowOrder <: Orders.TotalLeBool.
Definition t : Type := row.
Definition leb (x y : row) : bool := row_id x <=? row_id y.
Lemma leb_total : forall x y, leb x y = true \/ leb y x = true.
Proof. intros x y. unfold leb. rewrite !Z.leb_le. lia. Qed.
End RowOrder.

Module RowSort := Sort RowOrder.

(** SQL [LOWER] on the letters A..Z. *)
Definition lower_char (c : ascii) : ascii :=
  let n := nat_of_ascii c in
  if (Nat.leb 65 n && Nat.leb n 90)%bool then ascii_of_nat (n + 32) else c.

Fixpoint LOWER (s : string) : string :=
  match s with
  | EmptyString => EmptyString
  | String c rest => String (lower_char c) (LOWER rest)
  end.

(** [WHERE LOWER(type) = LOWER($1)]; a [NULL] label matches nothing. *)
Definition type_matches (param : string) (r : row) : bool :=
  match row_type r with
  | Some label => String.eqb (LOWER label) (LOWER param)
  | None => false
  end.

(** The state behind the pool: the committed table, the working copy of the
    transaction open on the connection (if any), and the [id] sequence. *)
Record database : Type := Database {
  landuse : table;
  txn : option table;
  landuse_id_seq : Z
}.

(** The table as the connection sees it. *)
Definition current (d : database) : table :=
  match txn d with
  | Some t => t
  | None => landuse d
  end.

(** A write goes to the open transaction, or straight to the table. *)
Definition write (d : database) (t : table) (seq : Z) : database :=
  match txn d with
  | Some _ => Database (landuse d) (Some t) seq
  | None => Database t None seq
  end.

(** The SQL texts that [server.js] sends, with their parameters. *)
Inductive statement : Type :=
| BEGIN
| DELETE_FROM_landuse
| INSERT_INTO_landuse (params : list (string * json))
| COMMIT
| ROLLBACK
| SELECT_geojson (type : option string) (offset limit : Z)
| SELECT_area (type : string).

(** What [rows[0]] holds. *)
Inductive result : Type :=
| NoRows
| Geojson (features : list row)
| AreaRow (feature_count : Z) (total_area_m2 : option float).

(** [SUM] over doubles skips [NULL] and is [NULL] without any input. *)
Fixpoint SUM (l : list (option float)) (acc : option float) : option float :=
  match l with
  | [] => acc
  | None :: rest => SUM rest acc
  | Some x :: rest =>
      SUM rest (Some match acc with Some a => PrimFloat.add a x | None => x end)
  end.

(** [ORDER BY id OFFSET $o LIMIT $l] over an optional [WHERE]. *)
Definition select_page (type : option string) (offset limit : Z) (t : table)
  : exn + list row :=
  let matching :=
    match type with
    | Some p => List.filter (type_matches p) t
    | None => t
    end in
  if offset <? 0 then inl (Error "OFFSET must not be negative")
  else if limit <? 0 then inl (Error "LIMIT must not be negative")
  else inr (firstn (Z.to_nat limit) (skipn (Z.to_nat offset) (RowSort.sort matching))).

(* ===================================================================== *)
(** ** The world and the handler monad *)
(* ===================================================================== *)

(** The content of a file, as [JSON.parse(fs.readFileSync(...))] finds it:
    a syntax error with its message, or the parsed value. *)
Definition content : Type := (exn + json)%type.

(** One entry of the query log: the statement, whether it succeeded, and
    the committed table right after it. *)
Record event : Type := Event {
  ev_statement : statement;
  ev_ok : bool;
  ev_landuse : table
}.

Record world : Type := World {
  db : database;
  faults : list (option string);
  log : list event;
  files : gmap string content
}.

(** A computation either throws or returns, and changes the world. *)
Definition M (A : Type) : Type := world -> (exn + A) * world.

Definition ret {A : Type} (a : A) : M A := fun w => (inr a, w).

Definition throw {A : Type} (e : exn) : M A := fun w => (inl e, w).

Definition bind {A B : Type} (m : M A) (k : A -> M B) : M B :=
  fun w =>
    match m w with
    | (inl e, w') => (inl e, w')
    | (inr a, w') => k a w'
    end.

(** A pure step that may throw. *)
Definition lift {A : Type} (r : exn + A) : M A := fun w => (r, w).

(** [try { body } catch (e) { handler }] *)
Definition try_catch {A : Type} (body : M A) (handler : exn -> M A) : M A :=
  fun w =>
    match body w with
    | (inl e, w') => handler e w'
    | (inr a, w') => (inr a, w')
    end.

(** [try { body } finally { cleanup }] *)
Definition try_finally {A : Type} (body : M A) (cleanup : M unit) : M A :=
  fun w =>
    match body w with
    | (r, w') =>
        match cleanup w' with
        | (inl e, w'') => (inl e, w'')
        | (inr _, w'') => (r, w'')
        end
    end.

(** [promise.catch(() => {})] *)
Definition swallow {A : Type} (m : M A) : M unit :=
  fun w => (inr tt, snd (m w)).

Declare Scope js_scope.
Delimit Scope js_scope with js.
Notation "'let!' x ':=' m 'in' k" := (bind m (fun x => k))
  (at level 10, x name, m at level 100, k at level 200) : js_scope.
Notation "'do!' m 'in' k" := (bind m (fun _ => k))
  (at level 10, m at level 100, k at level 200) : js_scope.
Local Open Scope js_scope.

(** [JSON.parse(fs.readFileSync(p, 'utf8'))] *)
Definition read_json (p : string) : M json :=
  fun w =>
    match files w !! p with
    | Some c => (c, w)
    | None =>
        (inl (Error ("ENOENT: no such file or directory, open '" ++ p ++ "'")), w)
    end.

(** [fs.existsSync(p)] *)
Definition fs_existsSync (p : string) : M bool :=
  fun w => (inr (bool_decide (is_Some (files w !! p))), w).

(** [fs.unlinkSync(p)] *)
Definition fs_unlinkSync (p : string) : M unit :=
  fun w => (inr tt, World (db w) (faults w) (log w) (delete p (files w))).

(* ===================================================================== *)
(** ** Sample data for the concrete runs *)
(* ===================================================================== *)

(** A driver that sends a string as it is and any other value as JSON. *)
Definition text_of_param (v : json) : string :=
  match v with
  | JStr s => s
  | _ => JSON_stringify v
  end.

(** A PostGIS in which every geometry covers a hectare and a half. *)
Definition flat_area (geom : string) : float := 15000%float.

Definition polygon : json :=
  JObj [("type", JStr "Polygon");
        ("coordinates",
         JArr [JArr [JArr [JNum 0; JNum 0]; JArr [JNum 1; JNum 0];
                     JArr [JNum 1; JNum 1]; JArr [JNum 0; JNum 0]]])].

Definition feature (geometry : json) (properties : list (string * json)) : json :=
  JObj [("type", JStr "Feature"); ("geometry", geometry);
        ("properties", JObj properties)].

Definition forest : json := feature polygon [("type", JStr "Forest")].
Definition unlabeled : json := feature polygon [("name", JStr "north field")].
Definition blank_label : json := feature polygon [("type", JStr "")].
Definition no_geometry : json := feature JNull [("type", JStr "Forest")].

Definition collection (features : list json) : json :=
  JObj [("type", JStr "FeatureCollection"); ("features", JArr features)].

Definition old_rows : table :=
  [Row 7 (Some "g7") (Some "Forest");
   Row 3 (Some "g3") (Some "forest");
   Row 5 (Some "g5") (Some "Water")].

(** A server in [/srv] with three rows in the table, a fault schedule and
    one uploaded file [u1]. *)
Definition server (schedule : list (option string)) (upload : content) : world :=
  World (Database old_rows None 8) schedule []
        (<["/srv/uploads/u1" := upload]> ∅).

(* ===================================================================== *)
(** ** The database behind the pool *)
(* ===================================================================== *)

(** The pool is one PostgreSQL session: a request runs its queries one
    after the other on it, and no other request runs in between.  A
    statement that fails changes nothing.  [BEGIN] opens a working copy of
    the table (or keeps the one that is open), writes go to the working
    copy, [COMMIT] makes it the table and [ROLLBACK] drops it; the [id]
    sequence is never rolled back.  [SUM] adds the areas in table order. *)

Section Server.

(** [__dirname] of the script. *)
Variable dirname : string.

(** The text the driver sends for a parameter bound to the [type] column. *)
Variable pg_text : json -> string.

(** [ST_Area(geom::geography)]: square metres of the geometry built from a
    GeoJSON text. *)
Variable ST_Area : string -> float.

(** Rows of one [INSERT], numbered from the sequence. *)
Fixpoint new_rows (params : list (string * json)) (next : Z) : list row :=
  match params with
  | [] => []
  | (geomJSON, typeVal) :: rest =>
      Row next (Some geomJSON) (Some (pg_text typeVal)) :: new_rows rest (next + 1)
  end.

(** One statement on the connection. *)
Definition exec (s : statement) (d : database) : exn + (result * database) :=
  match s with
  | BEGIN => inr (NoRows, Database (landuse d) (Some (current d)) (landuse_id_seq d))
  | DELETE_FROM_landuse => inr (NoRows, write d [] (landuse_id_seq d))
  | INSERT_INTO_landuse params =>
      inr (NoRows,
           write d (current d ++ new_rows params (landuse_id_seq d))%list
                 (landuse_id_seq d + Z.of_nat (length params)))
  | COMMIT => inr (NoRows, Database (current d) None (landuse_id_seq d))
  | ROLLBACK => inr (NoRows, Database (landuse d) None (landuse_id_seq d))
  | SELECT_geojson type offset limit =>
      match select_page type offset limit (current d) with
      | inl e => inl e
      | inr rows => inr (Geojson rows, d)
      end
  | SELECT_area type =>
      let matching := List.filter (type_matches type) (current d) in
      inr (AreaRow (Z.of_nat (length matching))
                   (SUM (map (fun r => option_map ST_Area (row_geom r)) matching) None),
           d)
  end.

(** [await pool.query(s)]: the next entry of the fault schedule, if it names
    an error, makes the query reject with that error and leaves the database
    alone; otherwise the statement runs. *)
Definition pool_query (s : statement) : M result :=
  fun w =>
    match faults w with
    | Some msg :: rest =>
        (inl (Error msg),
         World (db w) rest (log w ++ [Event s false (landuse (db w))])%list (files w))
    | schedule =>
        match exec s (db w) with
        | inl e =>
            (inl e,
             World (db w) (tl schedule)
                   (log w ++ [Event s false (landuse (db w))])%list (files w))
        | inr (r, d) =>
            (inr r,
             World d (tl schedule) (log w ++ [Event s true (landuse d)])%list (files w))
        end
    end.

(* ===================================================================== *)
(** ** Responses *)
(* ===================================================================== *)

(** The JSON bodies the server sends. *)
Inductive json_body : Type :=
| ErrorBody (error : string)
| MessageBody (message : string)
| FeatureCollection (features : list row)
| AreaBody (type : string) (totalAreaSquareMeters totalAreaHectares : float)
           (featureCount : Z).

Record response : Type := Response {
  status : Z;
  body : json_body
}.

(** [res.json(b)] *)
Definition res_json (b : json_body) : M response := ret (Response 200 b).

(** [res.status(code).json(b)] *)
Definition res_status_json (code : Z) (b : json_body) : M response :=
  ret (Response code b).

(** [rows[0].geojson] *)
Definition geojson_of (r : result) : exn + list row :=
  match r with
  | Geojson features => inr features
  | _ => inl (Error "Cannot read properties of undefined (reading 'geojson')")
  end.

(* ===================================================================== *)
(** ** GET /api/land_use, /api/filter/:type, /api/area/:type *)
(* ===================================================================== *)

Definition get_land_use (query_limit query_offset : option qval) : M response :=
  let limit := or_default (parseInt (ToString_query query_limit)) 1000 in
  let offset := or_default (parseInt (ToString_query query_offset)) 0 in
  try_catch
    (let! r := pool_query (SELECT_geojson None offset limit) in
     let! features := lift (geojson_of r) in
     res_json (FeatureCollection features))
    (fun e => res_status_json 500 (ErrorBody "Database error fetching land use")).

Definition get_filter (type : string) (query_limit query_offset : option qval)
  : M response :=
  let limit := or_default (parseInt (ToString_query query_limit)) 1000 in
  let offset := or_default (parseInt (ToString_query query_offset)) 0 in
  try_catch
    (let! r := pool_query (SELECT_geojson (Some type) offset limit) in
     let! features := lift (geojson_of r) in
     if Nat.eqb (length features) 0 then
       res_status_json 404
         (ErrorBody ("No features found with type '" ++ type ++ "'"))
     else res_json (FeatureCollection features))
    (fun e => res_status_json 500 (ErrorBody "Database error filtering land use")).

(** [x || 0] where [x] is a number or [null]: the falsy values [null],
    [NaN], [0] and [-0] all give [0]; any other number is kept. *)
Definition or_zero (x : option float) : float :=
  match x with
  | Some a =>
      if (PrimFloat.is_nan a || PrimFloat.is_zero a)%bool then 0%float else a
  | None => 0%float
  end.

(** [feature_count] (a [bigint]) arrives as the text of the count and
    [parseInt] reads it back; [total_area_m2] (a [double precision]) arrives
    as a number or [null], [total_area_m2 || 0] replaces the falsy ones by
    zero, and [parseFloat] of a number is that number. *)
Definition get_area (type : string) : M response :=
  try_catch
    (let! r := pool_query (SELECT_area type) in
     match r with
     | AreaRow feature_count total_area_m2 =>
         let count := feature_count in
         let area := or_zero total_area_m2 in
         if count =? 0 then
           res_status_json 404
             (ErrorBody ("No features found with type '" ++ type ++ "'"))
         else
           res_json (AreaBody type area (PrimFloat.div area 10000%float) count)
     | _ =>
         throw (Error "Cannot read properties of undefined (reading 'feature_count')")
     end)
    (fun e => res_status_json 500 (ErrorBody "Database error calculating area")).

(* ===================================================================== *)
(** ** POST /api/upload *)
(* ===================================================================== *)

Definition uploadsDir : string := dirname ++ "/uploads".

(** [path.resolve(uploadsDir, filename)] for the flat names multer assigns. *)
Definition path_resolve (dir filename : string) : string :=
  dir ++ "/" ++ filename.

Definition BATCH_SIZE : nat := 500.

(** [a.slice(from, to)] for [0 <= from <= to]. *)
Definition slice {A : Type} (a : list A) (from to : nat) : list A :=
  firstn (to - from) (skipn from a).

(** [JSON.stringify(v)]; [undefined] stays [undefined]. *)
Definition JSON_stringify_value (v : value) : option string :=
  option_map JSON_stringify v.

(** The body of [batch.forEach] for one feature: the pair of parameters it
    pushes, or nothing when the feature is skipped. *)
Definition feature_params (f : json) : exn + option (string * json) :=
  match get f "geometry" with
  | inl e => inl e
  | inr geometry =>
      let geomJSON := if truthy geometry then JSON_stringify_value geometry else None in
      match get f "properties" with
      | inl e => inl e
      | inr properties =>
          let type := get_optional properties "type" in
          let typeVal := if truthy type then type else Some JNull in
          if truthy_string geomJSON && truthy typeVal then
            match geomJSON, typeVal with
            | Some g, Some t => inr (Some (g, t))
            | _, _ => inr None
            end
          else inr None
      end
  end.

(** [batch.forEach(...)]: [params] grows by one pair per kept feature. *)
Fixpoint batch_forEach (batch : list json) (params : list (string * json))
  : exn + list (string * json) :=
  match batch with
  | [] => inr params
  | f :: rest =>
      match feature_params f with
      | inl e => inl e
      | inr (Some p) => batch_forEach rest (params ++ [p])%list
      | inr None => batch_forEach rest params
      end
  end.

(** The [for (let i = 0; i < data.features.length; i += BATCH_SIZE)] loop,
    from index [i] on; it returns [insertCount]. *)
Fixpoint insert_batches (fuel : nat) (features : list json) (i insertCount : nat)
  : M nat :=
  match fuel with
  | O => ret insertCount
  | S fuel' =>
      if Nat.ltb i (length features) then
        let batch := slice features i (i + BATCH_SIZE) in
        let! params := lift (batch_forEach batch []) in
        let! insertCount' :=
          (if Nat.ltb 0 (length params) then
             do! pool_query (INSERT_INTO_landuse params) in
             ret (insertCount + length batch)%nat
           else ret insertCount) in
        insert_batches fuel' features (i + BATCH_SIZE)%nat insertCount'
      else ret insertCount
  end.

Definition success_message (insertCount : nat) : string :=
  "GeoJSON uploaded and database updated successfully! Inserted "
  ++ number_to_string (Z.of_nat insertCount) ++ " features.".

(** The [try] block. *)
Definition upload_try (uploadedPath : string) : M response :=
  let! data := read_json uploadedPath in
  let! type := lift (get data "type") in
  let! invalid :=
    (if negb (strict_equal_string type "FeatureCollection") then ret true
     else
       let! features := lift (get data "features") in
       ret (negb (Array_isArray features))) in
  if invalid : bool then throw (Error "Invalid GeoJSON format")
  else
    let features :=
      match get data "features" with
      | inr (Some (JArr elements)) => elements
      | _ => []
      end in
    do! pool_query BEGIN in
    do! pool_query DELETE_FROM_landuse in
    let! insertCount := insert_batches (S (length features)) features 0 0 in
    do! pool_query COMMIT in
    res_json (MessageBody (success_message insertCount)).

(** The [catch (e)] block. *)
Definition upload_catch (e : exn) : M response :=
  do! swallow (pool_query ROLLBACK) in
  res_status_json 500
    (ErrorBody (if String.eqb (message e) "" then "Failed to upload and save GeoJSON"
                else message e)).

(** The [finally] block. *)
Definition upload_finally (uploadedPath : string) : M unit :=
  let! found := fs_existsSync uploadedPath in
  if found : bool then fs_unlinkSync uploadedPath else ret tt.

(** The handler; [file] is [req.file.filename] when a file came with the
    request. *)
Definition post_upload (file : option string) : M response :=
  match file with
  | None => res_status_json 400 (ErrorBody "No file uploaded")
  | Some filename =>
      let uploadedPath := path_resolve uploadsDir filename in
      try_finally
        (try_catch (upload_try uploadedPath) upload_catch)
        (upload_finally uploadedPath)
  end.

(* ===================================================================== *)
(** ** GET /api/local, /api/district, /api/province *)
(* ===================================================================== *)

(** The three levels the boundary route is registered for. *)
Inductive level : Type := local | district | province.

Definition level_name (l : level) : string :=
  match l with
  | local => "local"
  | district => "district"
  | province => "province"
  end.

(** A response whose body is an arbitrary JSON value. *)
Record json_response : Type := JsonResponse {
  json_status : Z;
  json_payload : json
}.

(** [path.join(__dirname, `data/${level}.geojson`)] *)
Definition boundary_file (l : level) : string :=
  dirname ++ "/data/" ++ level_name l ++ ".geojson".

(** The handler of one level.  It has no [try]: what [JSON.parse] throws
    leaves the handler. *)
Definition get_boundary (l : level) : M json_response :=
  let file := boundary_file l in
  let! found := fs_existsSync file in
  if negb found then
    ret (JsonResponse 404
           (JObj [("error", JStr (level_name l ++ " boundary not found"))]))
  else
    let! data := read_json file in
    ret (JsonResponse 200 data).

(* ===================================================================== *)
(** ** Vocabulary of the contracts *)
(* ===================================================================== *)

(** The fields of a feature as the upload loop reads them. *)
Definition geometry_of (f : json) : value :=
  match get f "geometry" with
  | inr v => v
  | inl _ => None
  end.

Definition properties_of (f : json) : value :=
  match get f "properties" with
  | inr v => v
  | inl _ => None
  end.

Definition type_of (f : json) : value := get_optional (properties_of f) "type".

(** "Non-null": neither [null] nor missing. *)
Definition non_null (v : value) : bool :=
  match v with
  | None => false
  | Some JNull => false
  | Some _ => true
  end.

(** A feature is kept when its geometry and its label are both truthy. *)
Definition insertable (f : json) : bool :=
  truthy (geometry_of f) && truthy (type_of f).

(** The parameter pair of a kept feature. *)
Definition row_of (f : json) : option (string * json) :=
  match geometry_of f, type_of f with
  | Some g, Some t => if insertable f then Some (JSON_stringify g, t) else None
  | _, _ => None
  end.

(** The parameter pairs of the kept features of a list, in input order. *)
Definition kept (features : list json) : list (string * json) :=
  flat_map (fun f => match row_of f with Some p => [p] | None => [] end) features.

(** The feature without its [properties.type] member. *)
Fixpoint remove_member (k : string) (members : list (string * json))
  : list (string * json) :=
  match members with
  | [] => []
  | (k', v) :: rest =>
      if String.eqb k k' then remove_member k rest
      else (k', v) :: remove_member k rest
  end.

Fixpoint without_label_members (members : list (string * json))
  : list (string * json) :=
  match members with
  | [] => []
  | (k, v) :: rest =>
      if String.eqb "properties" k then
        (k, match v with
            | JObj props => JObj (remove_member "type" props)
            | _ => v
            end) :: rest
      else (k, v) :: without_label_members rest
  end.

Definition without_label (f : json) : json :=
  match f with
  | JObj members => JObj (without_label_members members)
  | _ => f
  end.

(** The number of batches of a list of [n] features. *)
Definition batch_count (n : nat) : nat := (n + (BATCH_SIZE - 1)) / BATCH_SIZE.

(** The [n] consecutive batches that start at index [i]. *)
Definition batches_from (features : list json) (i n : nat) : list (list json) :=
  map (fun k => slice features (i + k * BATCH_SIZE) (i + k * BATCH_SIZE + BATCH_SIZE))
      (seq 0 n).

(** The batches of an upload, in input order. *)
Definition batches (features : list json) : list (list json) :=
  batches_from features 0 (batch_count (length features)).

(** The upload loop over an explicit list of batches. *)
Fixpoint run_batches (bs : list (list json)) (insertCount : nat) : M nat :=
  match bs with
  | [] => ret insertCount
  | batch :: rest =>
      let! params := lift (batch_forEach batch []) in
      let! insertCount' :=
        (if Nat.ltb 0 (length params) then
           do! pool_query (INSERT_INTO_landuse params) in
           ret (insertCount + length batch)%nat
         else ret insertCount) in
      run_batches rest insertCount'
  end.

(** What a batch adds to the count of the success message: its input size
    if it yields a row, nothing otherwise. *)
Definition batch_report (batch : list json) : nat :=
  match kept batch with
  | [] => 0%nat
  | _ :: _ => length batch
  end.

Definition reported_count (features : list json) : nat :=
  list_sum (map batch_report (batches features)).

(** The [INSERT] statements of an upload: one per batch that yields a row. *)
Definition batch_insert (batch : list json) : list statement :=
  match kept batch with
  | [] => []
  | _ :: _ => [INSERT_INTO_landuse (kept batch)]
  end.

Definition insert_statements (features : list json) : list statement :=
  flat_map batch_insert (batches features).

(** The [features] array of an uploaded file that passes the validation. *)
Definition uploaded_features (c : option content) : option (list json) :=
  match c with
  | Some (inr (JObj members)) =>
      if strict_equal_string (lookup_member "type" members) "FeatureCollection" then
        match lookup_member "features" members with
        | Some (JArr elements) => Some elements
        | _ => None
        end
      else None
  | _ => None
  end.

(** The transaction of an upload whose features passed the validation. *)
Definition upload_txn (features : list json) : M response :=
  do! pool_query BEGIN in
  do! pool_query DELETE_FROM_landuse in
  let! insertCount := run_batches (batches features) 0 in
  do! pool_query COMMIT in
  res_json (MessageBody (success_message insertCount)).

(** The table after a full replacement by the kept features. *)
Definition replacement (d : database) (features : list json) : table :=
  new_rows (kept features) (landuse_id_seq d).

(** No entry of the fault schedule names an error. *)
Definition no_fault (w : world) : Prop := Forall (fun f => f = None) (faults w).

(** The next query is not scheduled to fail. *)
Definition next_ok (w : world) : Prop := hd None (faults w) = None.

(** The page size and the page start of a request, in the words of the
    contract: the parsed parameter, or the default when the parameter is
    absent, is not a number, or is zero. *)
Definition page_limit (q : option qval) : Z :=
  match q with
  | None => 1000
  | Some v =>
      match parseInt (ToString v) with
      | None => 1000
      | Some n => if n =? 0 then 1000 else n
      end
  end.

Definition page_offset (q : option qval) : Z :=
  match q with
  | None => 0
  | Some v =>
      match parseInt (ToString v) with
      | None => 0
      | Some n => n
      end
  end.

(** Ascending identifier order. *)
Definition id_le (a b : row) : Prop := row_id a <= row_id b.

(** The rows of a category, and their total area. *)
Definition matching (type : string) (t : table) : table :=
  List.filter (type_matches type) t.

(** The areas of the rows that have a geometry, in table order, and their
    sum from left to right; no area, no sum. *)
Definition areas (rows : table) : list float :=
  flat_map (fun r => match row_geom r with
                     | Some g => [ST_Area g]
                     | None => []
                     end) rows.

Definition total_area (rows : table) : option float :=
  match areas rows with
  | [] => None
  | a :: rest => Some (fold_left PrimFloat.add rest a)
  end.

(** Two strings that differ only in letter case: same length, and at each
    position the same character or the two cases of one letter. *)
Definition is_upper (c : ascii) : bool :=
  let n := nat_of_ascii c in (Nat.leb 65 n && Nat.leb n 90)%bool.

Definition upper_of (lower upper : ascii) : bool :=
  is_upper upper && Ascii.eqb lower (ascii_of_nat (nat_of_ascii upper + 32)).

Definition same_letter (a b : ascii) : bool :=
  Ascii.eqb a b || upper_of a b || upper_of b a.

Fixpoint differ_only_in_case (s t : string) : bool :=
  match s, t with
  | EmptyString, EmptyString => true
  | String a s', String b t' => same_letter a b && differ_only_in_case s' t'
  | _, _ => false
  end.

(** A request that asked the database one thing and changed nothing: the
    database and the files are as before, one entry of the schedule is used
    up, and the log has one more event, for the statement [s]. *)
Definition only_asked (s : statement) (w w' : world) : Prop :=
  db w' = db w /\
  files w' = files w /\
  faults w' = tl (faults w) /\
  exists ok, log w' = (log w ++ [Event s ok (landuse (db w))])%list.

(** The page that a limit and an offset cut out of a table. *)
Definition page (limit offset : Z) (t : table) : list row :=
  firstn (Z.to_nat limit) (skipn (Z.to_nat offset) (RowSort.sort t)).

(** The validation of an uploaded value: [type] is the string
    "FeatureCollection" and [features] is an array. *)
Definition well_formed (data : json) : bool :=
  match data with
  | JObj members =>
      strict_equal_string (lookup_member "type" members) "FeatureCollection"
      && Array_isArray (lookup_member "features" members)
  | _ => false
  end.

(** The statements an upload may send: the four transaction commands, and
    inserts of one to [BATCH_SIZE] rows. *)
Definition upload_statement (s : statement) : Prop :=
  match s with
  | BEGIN | DELETE_FROM_landuse | COMMIT | ROLLBACK => True
  | INSERT_INTO_landuse params => (1 <= length params <= BATCH_SIZE)%nat
  | SELECT_geojson _ _ _ | SELECT_area _ => False
  end.

(** A computation whose every query is a statement in [P]. *)
Definition emits {A : Type} (P : statement -> Prop) (m : M A) : Prop :=
  forall w, exists evs,
    log (snd (m w)) = (log w ++ evs)%list /\
    Forall (fun ev => P (ev_statement ev)) evs.

(** The columns of a row that an upload decides. *)
Definition columns (r : row) : option string * option string :=
  (row_geom r, row_type r).

(** Strictly ascending identifiers. *)
Definition id_lt (a b : row) : Prop := row_id a < row_id b.

(** A feature that an upload keeps and stores under a label equal to
    [type] up to letter case. *)
Definition counts_for (type : string) (f : json) : bool :=
  insertable f &&
  match type_of f with
  | Some t => String.eqb (LOWER (pg_text t)) (LOWER type)
  | None => false
  end.

(** A file name without a path separator, as multer assigns them. *)
Fixpoint flat_name (s : string) : bool :=
  match s with
  | EmptyString => true
  | String c rest => negb (Ascii.eqb c "/") && flat_name rest
  end.
(* ===================================================================== *)
(** ** Features and batches *)
(* ===================================================================== *)

Lemma number_to_string_nonempty (n : Z) : number_to_string n <> "".
Proof.
  unfold number_to_string, NilZero.string_of_int.
  destruct (Z.to_int n) as [d | d]; [destruct d | ]; discriminate.
Qed.

Lemma JSON_stringify_nonempty (j : json) : JSON_stringify j <> "".
Proof.
  destruct j as [ | [ | ] | n | s | l | l]; simpl; try discriminate.
  apply number_to_string_nonempty.
Qed.

Lemma truthy_string_stringify (j : json) :
  truthy_string (Some (JSON_stringify j)) = true.
Proof.
  simpl. apply negb_true_iff, String.eqb_neq, JSON_stringify_nonempty.
Qed.

(** On a feature that is not [null] the loop body never throws and pushes
    exactly [row_of f]. *)
Lemma feature_params_spec (f : json) :
  f <> JNull -> feature_params f = inr (row_of f).
Proof.
  intros Hf.
  unfold feature_params, row_of, insertable, type_of, geometry_of, properties_of,
    JSON_stringify_value.
  destruct f as [ | b | n | s | l | l]; try congruence; try (simpl; reflexivity).
  cbn [get].
  set (ty := get_optional (lookup_member "properties" l) "type").
  destruct (lookup_member "geometry" l) as [g | ].
  - destruct (truthy (Some g)) eqn:Tg; cbn [option_map andb].
    + rewrite truthy_string_stringify. cbn [andb].
      destruct ty as [t | ].
      * destruct (truthy (Some t)) eqn:Tt; [rewrite Tt | ]; reflexivity.
      * reflexivity.
    + destruct ty as [t | ]; reflexivity.
  - destruct ty as [t | ]; reflexivity.
Qed.

(** The loop body throws on [null] and on nothing else. *)
Lemma feature_params_inr (f : json) (o : option (string * json)) :
  feature_params f = inr o -> f <> JNull /\ o = row_of f.
Proof.
  intros H. destruct f; try (rewrite feature_params_spec in H by discriminate;
    split; [discriminate | congruence]).
  discriminate H.
Qed.

Lemma batch_forEach_spec (batch : list json) (params : list (string * json)) :
  Forall (fun f => f <> JNull) batch ->
  batch_forEach batch params = inr (params ++ kept batch)%list.
Proof.
  intros H. revert params. induction H as [ | f rest Hf _ IH]; intros params; simpl.
  - now rewrite app_nil_r.
  - rewrite (feature_params_spec f Hf). destruct (row_of f) as [p | ].
    + rewrite IH. now rewrite <- app_assoc.
    + apply IH.
Qed.

Lemma batch_forEach_inr (batch : list json) (params ps : list (string * json)) :
  batch_forEach batch params = inr ps ->
  Forall (fun f => f <> JNull) batch /\ ps = (params ++ kept batch)%list.
Proof.
  revert params. induction batch as [ | f rest IH]; intros params; simpl.
  - intros [= <-]. split; [constructor | now rewrite app_nil_r].
  - destruct (feature_params f) as [e | o] eqn:Hf; [discriminate | ].
    apply feature_params_inr in Hf as [Hn ->].
    destruct (row_of f) as [p | ]; intros H; apply IH in H as [HF ->].
    + split; [now constructor | now rewrite <- app_assoc].
    + split; [now constructor | reflexivity].
Qed.

Lemma kept_app (l1 l2 : list json) : kept (l1 ++ l2) = (kept l1 ++ kept l2)%list.
Proof. apply flat_map_app. Qed.

Lemma row_of_insertable (f : json) :
  insertable f = true <-> exists p, row_of f = Some p.
Proof.
  unfold row_of, insertable. split.
  - intros H. rewrite H. apply andb_true_iff in H as [Hg Ht].
    destruct (geometry_of f) as [g | ]; [ | discriminate].
    destruct (type_of f) as [t | ]; [ | discriminate]. eauto.
  - intros [p H]. destruct (geometry_of f); [ | discriminate].
    destruct (type_of f); [ | discriminate].
    destruct (truthy _ && truthy _); [reflexivity | discriminate].
Qed.

Lemma kept_length (features : list json) :
  length (kept features) = length (List.filter insertable features).
Proof.
  induction features as [ | f rest IH]; simpl; [reflexivity | ].
  rewrite length_app, IH. destruct (insertable f) eqn:Hi.
  - apply row_of_insertable in Hi as [p ->]. reflexivity.
  - destruct (row_of f) as [p | ] eqn:Hr; [ | reflexivity].
    assert (insertable f = true) by (apply row_of_insertable; eauto). congruence.
Qed.

Lemma truthy_non_null (v : value) : truthy v = true -> non_null v = true.
Proof. destruct v as [[ | | | | | ] | ]; simpl; congruence. Qed.

(* ===================================================================== *)
(** ** The batch loop *)
(* ===================================================================== *)

Lemma BATCH_SIZE_pos : (0 < BATCH_SIZE)%nat.
Proof. unfold BATCH_SIZE. lia. Qed.

(** The batches are the slices [500k, 500k + 500) of the input. *)
Lemma batches_shape (features : list json) :
  batches features
  = map (fun k => slice features (k * 500) (k * 500 + 500))
        (seq 0 ((length features + 499) / 500)).
Proof. reflexivity. Qed.

#[local] Opaque BATCH_SIZE.

Lemma batch_count_0 : batch_count 0 = 0%nat.
Proof.
  unfold batch_count. apply Nat.div_small. pose proof BATCH_SIZE_pos. lia.
Qed.

Lemma batch_count_S (n : nat) :
  (0 < n)%nat -> batch_count n = S (batch_count (n - BATCH_SIZE)).
Proof.
  intros Hn. pose proof BATCH_SIZE_pos as HB. unfold batch_count.
  destruct (Nat.le_gt_cases BATCH_SIZE n) as [Hge | Hlt].
  - replace (n + (BATCH_SIZE - 1))%nat
      with ((n - BATCH_SIZE + (BATCH_SIZE - 1)) + 1 * BATCH_SIZE)%nat by lia.
    rewrite Nat.div_add by lia. lia.
  - replace (n - BATCH_SIZE)%nat with 0%nat by lia.
    rewrite (Nat.div_small (0 + (BATCH_SIZE - 1))) by lia.
    symmetry. apply (Nat.div_unique _ _ 1 (n - 1)); lia.
Qed.

Lemma batch_count_le (n : nat) : (batch_count n <= n)%nat.
Proof.
  pose proof BATCH_SIZE_pos as HB. unfold batch_count.
  destruct n as [ | n]; [rewrite Nat.div_small; lia | ].
  apply Nat.Div0.div_le_upper_bound. nia.
Qed.

Lemma batches_from_S (features : list json) (i n : nat) :
  batches_from features i (S n) =
  slice features i (i + BATCH_SIZE) :: batches_from features (i + BATCH_SIZE) n.
Proof.
  unfold batches_from. rewrite <- cons_seq, <- seq_shift, map_cons, map_map.
  f_equal.
  - f_equal; lia.
  - apply map_ext. intros k. f_equal; lia.
Qed.

Lemma bind_ext {A B : Type} (m : M A) (k1 k2 : A -> M B) (w : world) :
  (forall a w', k1 a w' = k2 a w') -> bind m k1 w = bind m k2 w.
Proof.
  intros H. unfold bind. destruct (m w) as [[e | a] w']; [reflexivity | apply H].
Qed.

(** With more fuel than batches left, the indexed loop is the loop over the
    batches from [i] on: it never runs out of fuel. *)
Lemma insert_batches_run (features : list json) :
  forall n fuel i c w,
    n = batch_count (length features - i) ->
    (n < fuel)%nat ->
    insert_batches fuel features i c w = run_batches (batches_from features i n) c w.
Proof.
  induction n as [ | n IH]; intros fuel i c w Hn Hfuel;
    (destruct fuel as [ | fuel]; [lia | ]); cbn [insert_batches].
  - assert (length features - i = 0)%nat as Hlen.
    { destruct (length features - i)%nat eqn:E; [reflexivity | ].
      rewrite batch_count_S in Hn by lia. discriminate. }
    replace (i <? length features)%nat with false
      by (symmetry; apply Nat.ltb_ge; lia).
    reflexivity.
  - assert (i < length features)%nat as Hlt.
    { destruct (Nat.le_gt_cases (length features) i) as [Hle | ]; [ | assumption].
      replace (length features - i)%nat with 0%nat in Hn by lia.
      rewrite batch_count_0 in Hn. discriminate. }
    replace (i <? length features)%nat with true
      by (symmetry; apply Nat.ltb_lt; assumption).
    rewrite batches_from_S. cbn [run_batches].
    apply bind_ext. intros params w1. apply bind_ext. intros c' w2.
    apply IH; [ | lia].
    rewrite batch_count_S in Hn by lia. injection Hn as ->. f_equal. lia.
Qed.

(** The loop of the handler is the loop over [batches]. *)
Lemma insert_batches_batches (features : list json) (w : world) :
  insert_batches (S (length features)) features 0 0 w
  = run_batches (batches features) 0 w.
Proof.
  apply insert_batches_run.
  - now rewrite Nat.sub_0_r.
  - pose proof (batch_count_le (length features)). lia.
Qed.

(** More fuel changes nothing: the loop terminates. *)
Lemma insert_batches_fuel (features : list json) (fuel : nat) (w : world) :
  (length features < fuel)%nat ->
  insert_batches fuel features 0 0 w
  = insert_batches (S (length features)) features 0 0 w.
Proof.
  intros H. rewrite insert_batches_batches. apply insert_batches_run.
  - now rewrite Nat.sub_0_r.
  - pose proof (batch_count_le (length features)). lia.
Qed.

Lemma slice_skipn (features : list json) (i : nat) :
  (slice features i (i + BATCH_SIZE) ++ skipn (i + BATCH_SIZE) features)%list
  = skipn i features.
Proof.
  unfold slice. replace (i + BATCH_SIZE - i)%nat with BATCH_SIZE by lia.
  rewrite <- (firstn_skipn BATCH_SIZE (skipn i features)) at 2.
  f_equal. rewrite skipn_skipn. f_equal. lia.
Qed.

(** The batches from [i] on partition the features from [i] on. *)
Lemma concat_batches_from (features : list json) :
  forall n i, n = batch_count (length features - i) ->
    concat (batches_from features i n) = skipn i features.
Proof.
  induction n as [ | n IH]; intros i Hn.
  - cbn. symmetry. apply skipn_all2.
    destruct (length features - i)%nat eqn:E; [lia | ].
    rewrite batch_count_S in Hn by lia. discriminate.
  - assert (i < length features)%nat as Hlt.
    { destruct (Nat.le_gt_cases (length features) i) as [Hle | ]; [ | assumption].
      replace (length features - i)%nat with 0%nat in Hn by lia.
      rewrite batch_count_0 in Hn. discriminate. }
    rewrite batches_from_S. cbn [concat]. rewrite IH.
    + apply slice_skipn.
    + rewrite batch_count_S in Hn by lia. injection Hn as ->. f_equal. lia.
Qed.

Lemma concat_batches (features : list json) : concat (batches features) = features.
Proof.
  unfold batches. rewrite concat_batches_from by now rewrite Nat.sub_0_r.
  reflexivity.
Qed.

(** Every batch holds between one and [BATCH_SIZE] features. *)
Lemma batches_from_size (features : list json) :
  forall n i, n = batch_count (length features - i) ->
    Forall (fun b => 0 < length b <= BATCH_SIZE)%nat (batches_from features i n).
Proof.
  pose proof BATCH_SIZE_pos as HB.
  induction n as [ | n IH]; intros i Hn; [constructor | ].
  assert (i < length features)%nat as Hlt.
  { destruct (Nat.le_gt_cases (length features) i) as [Hle | ]; [ | assumption].
    replace (length features - i)%nat with 0%nat in Hn by lia.
    rewrite batch_count_0 in Hn. discriminate. }
  rewrite batches_from_S. constructor.
  - unfold slice. rewrite length_firstn, length_skipn. lia.
  - apply IH. rewrite batch_count_S in Hn by lia. injection Hn as ->. f_equal. lia.
Qed.

Lemma batches_size (features : list json) :
  Forall (fun b => 0 < length b <= BATCH_SIZE)%nat (batches features).
Proof. apply batches_from_size. now rewrite Nat.sub_0_r. Qed.

(* ===================================================================== *)
(** ** Queries *)
(* ===================================================================== *)

(** A query either rejects and leaves the database alone, or runs its
    statement; either way it uses up one entry of the schedule and logs one
    event. *)
Lemma pool_query_cases (s : statement) (w : world) :
  (exists e,
      pool_query s w =
      (inl e, World (db w) (tl (faults w))
                    (log w ++ [Event s false (landuse (db w))]) (files w))
      /\ (hd None (faults w) = Some (message e) \/
          (next_ok w /\ exec s (db w) = inl e)))
  \/
  (exists r d,
      next_ok w /\ exec s (db w) = inr (r, d) /\
      pool_query s w =
      (inr r, World d (tl (faults w)) (log w ++ [Event s true (landuse d)]) (files w))).
Proof.
  unfold pool_query, next_ok. destruct (faults w) as [ | [msg | ] rest] eqn:Hf.
  - destruct (exec s (db w)) as [e | [r d]] eqn:He.
    + left. exists e. split; [reflexivity | right; split; reflexivity].
    + right. exists r, d. repeat split; reflexivity.
  - left. exists (Error msg). split; [reflexivity | left; reflexivity].
  - destruct (exec s (db w)) as [e | [r d]] eqn:He.
    + left. exists e. split; [reflexivity | right; split; reflexivity].
    + right. exists r, d. repeat split; reflexivity.
Qed.

Lemma pool_query_ok (s : statement) (w : world) (r : result) (d : database) :
  next_ok w -> exec s (db w) = inr (r, d) ->
  pool_query s w =
  (inr r, World d (tl (faults w)) (log w ++ [Event s true (landuse d)]) (files w)).
Proof.
  intros Hok He. destruct (pool_query_cases s w) as [(e & _ & [H | [_ H]]) | (r' & d' & _ & He' & ->)].
  - unfold next_ok in Hok. congruence.
  - congruence.
  - congruence.
Qed.

Lemma pool_query_fault (s : statement) (w : world) (msg : string) (rest : list (option string)) :
  faults w = Some msg :: rest ->
  pool_query s w =
  (inl (Error msg),
   World (db w) rest (log w ++ [Event s false (landuse (db w))]) (files w)).
Proof. intros H. unfold pool_query. rewrite H. reflexivity. Qed.

Lemma no_fault_next_ok (w : world) : no_fault w -> next_ok w.
Proof.
  unfold no_fault, next_ok. destruct (faults w); [reflexivity | ].
  intros H. now inversion H.
Qed.

Lemma no_fault_tl (d d' : database) (f : list (option string)) (l l' : list event)
      (fs fs' : gmap string content) :
  no_fault (World d f l fs) -> no_fault (World d' (tl f) l' fs').
Proof.
  unfold no_fault. cbn. destruct f; [trivial | ]. intros H. now inversion H.
Qed.

(* ===================================================================== *)
(** ** The loop inside the transaction *)
(* ===================================================================== *)

Lemma new_rows_app (ps qs : list (string * json)) (next : Z) :
  new_rows (ps ++ qs) next
  = (new_rows ps next ++ new_rows qs (next + Z.of_nat (length ps)))%list.
Proof.
  revert next. induction ps as [ | [g t] ps IH]; intros next.
  - cbn. now rewrite Z.add_0_r.
  - cbn [app new_rows length]. rewrite IH. cbn [app]. do 3 f_equal. lia.
Qed.

(** A batch without a kept feature sends nothing; an empty upload, or one in
    which every feature is skipped, leaves the loop without a query. *)
Lemma run_batches_nothing (bs : list (list json)) (c : nat) (w : world) :
  Forall (fun f => f <> JNull) (concat bs) ->
  kept (concat bs) = [] ->
  run_batches bs c w = (inr c, w).
Proof.
  revert c w. induction bs as [ | b bs IH]; intros c w Hn Hk; [reflexivity | ].
  cbn [concat] in Hn, Hk. apply Forall_app in Hn as [Hb Hbs].
  rewrite kept_app in Hk. apply app_eq_nil in Hk as [Hkb Hkbs].
  cbn [run_batches]. unfold bind at 1, lift.
  rewrite (batch_forEach_spec b [] Hb), Hkb. cbn [app length Nat.ltb Nat.leb].
  unfold bind, ret. apply IH; assumption.
Qed.

(** The loop inside an open transaction: the committed table stays as it
    was, whatever the outcome; on success the working copy has grown by the
    rows of the kept features. *)
Lemma run_batches_spec (bs : list (list json)) :
  forall (c : nat) (w : world) (t : table),
    txn (db w) = Some t ->
    exists r w' evs,
      run_batches bs c w = (r, w') /\
      files w' = files w /\
      landuse (db w') = landuse (db w) /\
      log w' = (log w ++ evs)%list /\
      Forall (fun ev => ev_landuse ev = landuse (db w)) evs /\
      match r with
      | inl e => True
      | inr n =>
          n = (c + list_sum (map batch_report bs))%nat /\
          map ev_statement evs = flat_map batch_insert bs /\
          Forall (fun ev => ev_ok ev = true) evs /\
          txn (db w') = Some (t ++ new_rows (kept (concat bs)) (landuse_id_seq (db w)))%list /\
          landuse_id_seq (db w')
          = landuse_id_seq (db w) + Z.of_nat (length (kept (concat bs))) /\
          Forall (fun f => f <> JNull) (concat bs)
      end.
Proof.
  induction bs as [ | b bs IH]; intros c w t Ht.
  - exists (inr c), w, []. cbn. rewrite !app_nil_r, Z.add_0_r, Nat.add_0_r.
    repeat split; auto.
  - cbn [run_batches]. unfold bind at 1, lift.
    destruct (batch_forEach b []) as [e | params] eqn:Hb.
    { exists (inl e), w, []. rewrite app_nil_r. repeat split; auto. }
    apply batch_forEach_inr in Hb as [Hnull Hparams]. cbn [app] in Hparams.
    subst params. cbn [map flat_map concat].
    change (list_sum (batch_report b :: map batch_report bs))
      with (batch_report b + list_sum (map batch_report bs))%nat.
    rewrite kept_app. unfold batch_report at 1, batch_insert at 1.
    destruct (kept b) as [ | p ps] eqn:Hk.
    + cbn [length Nat.ltb Nat.leb]. unfold bind at 1, ret at 1.
      destruct (IH c w t Ht) as (r & w' & evs & Hrun & Hfiles & Hland & Hlog & Hevs & Hr).
      exists r, w', evs. repeat split; try assumption.
      destruct r as [e | n]; [exact I | ].
      destruct Hr as (Hn & Hst & Hok & Htxn & Hseq & Hnn).
      cbn [app]. repeat split; try assumption.
      apply Forall_app; split; assumption.
    + replace (0 <? length (p :: ps))%nat with true by reflexivity.
      unfold bind at 1. unfold bind at 1.
      destruct (pool_query_cases (INSERT_INTO_landuse (p :: ps)) w)
        as [(e & -> & _) | (r0 & d & _ & He & ->)].
      { eexists (inl e), _, [_]. split; [reflexivity | ]. cbn [db files log landuse].
        repeat split; auto. }
      assert (d = Database (landuse (db w))
                  (Some (t ++ new_rows (p :: ps) (landuse_id_seq (db w)))%list)
                  (landuse_id_seq (db w) + Z.of_nat (length (p :: ps)))) as ->.
      { cbn [exec] in He. unfold write, current in He. rewrite Ht in He. injection He as _ <-. reflexivity. }
      unfold ret at 1.
      match goal with |- context [run_batches bs ?c' ?w1] =>
        destruct (IH c' w1 _ eq_refl)
          as (r & w' & evs & Hrun & Hfiles & Hland & Hlog & Hevs & Hr)
      end.
      cbn [db files log landuse txn landuse_id_seq] in Hfiles, Hland, Hlog, Hevs, Hr.
      exists r, w', (Event (INSERT_INTO_landuse (p :: ps)) true (landuse (db w)) :: evs).
      split; [exact Hrun | ]. split; [exact Hfiles | ]. split; [exact Hland | ].
      split; [rewrite Hlog, <- app_assoc; reflexivity | ].
      split; [constructor; [reflexivity | exact Hevs] | ].
      destruct r as [e | n]; [exact I | ].
      destruct Hr as (Hn & Hst & Hok & Htxn & Hseq & Hnn).
      split; [rewrite Hn; lia | ].
      split; [cbn [map ev_statement app]; now rewrite Hst | ].
      split; [constructor; [reflexivity | exact Hok] | ].
      split; [rewrite Htxn, new_rows_app, <- app_assoc; reflexivity | ].
      split; [rewrite Hseq, length_app; lia | ].
      apply Forall_app; split; assumption.
Qed.

(* ===================================================================== *)
(** ** The upload transaction *)
(* ===================================================================== *)

(** A file that passes the validation sends the handler into the
    transaction. *)
Lemma upload_try_valid (path : string) (w : world) (elements : list json) :
  uploaded_features (files w !! path) = Some elements ->
  upload_try path w = upload_txn elements w.
Proof.
  unfold uploaded_features, upload_try, upload_txn, read_json. intros H.
  unfold bind at 1. destruct (files w !! path) as [[e | data] | ]; try discriminate.
  destruct data as [ | | | | | members]; try discriminate.
  unfold bind at 1, lift at 1. cbn [get].
  destruct (strict_equal_string (lookup_member "type" members) "FeatureCollection");
    [ | discriminate].
  destruct (lookup_member "features" members) as [[ | | | | l | ] | ]; try discriminate.
  injection H as ->. cbn [negb].
  unfold bind at 1. unfold bind at 1, lift at 1, ret at 1. cbn [Array_isArray negb].
  apply bind_ext. intros _ w1. apply bind_ext. intros _ w2.
  unfold bind at 1. rewrite insert_batches_batches. reflexivity.
Qed.

(** Any other file makes the [try] block throw before it reaches the
    database. *)
Lemma upload_try_invalid (path : string) (w : world) :
  uploaded_features (files w !! path) = None ->
  exists e, upload_try path w = (inl e, w).
Proof.
  unfold uploaded_features, upload_try, read_json. intros H.
  unfold bind at 1. destruct (files w !! path) as [[e | data] | ]; eauto.
  unfold bind at 1, lift at 1.
  destruct data as [ | | | | | members]; cbn; eauto.
  destruct (strict_equal_string (lookup_member "type" members) "FeatureCollection");
    cbn; eauto.
  destruct (lookup_member "features" members) as [[ | | | | l | ] | ];
    try discriminate; cbn; eauto.
Qed.

(** The transaction, step by step: until [COMMIT] succeeds the committed
    table is the one before the upload; when it does, the table is the
    replacement. *)
Lemma upload_txn_spec (elements : list json) (w : world) :
  exists r w1 evs,
    upload_txn elements w = (r, w1) /\
    files w1 = files w /\
    log w1 = (log w ++ evs)%list /\
    match r with
    | inl e =>
        landuse (db w1) = landuse (db w) /\
        Forall (fun ev => ev_landuse ev = landuse (db w)) evs
    | inr resp =>
        resp = Response 200 (MessageBody (success_message (reported_count elements))) /\
        Forall (fun f => f <> JNull) elements /\
        db w1 = Database (replacement (db w) elements) None
                         (landuse_id_seq (db w) + Z.of_nat (length (kept elements))) /\
        exists inner,
          evs = (inner ++ [Event COMMIT true (replacement (db w) elements)])%list /\
          map ev_statement inner
          = BEGIN :: DELETE_FROM_landuse :: insert_statements elements /\
          Forall (fun ev => ev_ok ev = true) inner /\
          Forall (fun ev => ev_landuse ev = landuse (db w)) inner
    end.
Proof.
  unfold upload_txn. unfold bind at 1.
  destruct (pool_query_cases BEGIN w) as [(e & -> & _) | (r0 & d0 & _ & He & ->)].
  { eexists (inl e), _, [_]. cbn [db files log landuse]. repeat split; auto. }
  cbn [exec] in He. injection He as _ <-.
  unfold bind at 1.
  match goal with |- context [pool_query DELETE_FROM_landuse ?w0] =>
    destruct (pool_query_cases DELETE_FROM_landuse w0)
      as [(e & -> & _) | (r1 & d1 & _ & He & ->)]
  end.
  { eexists (inl e), _, [_; _]. cbn [db files log landuse].
    rewrite <- app_assoc. repeat split; auto. }
  cbn [exec write db txn landuse landuse_id_seq] in He. injection He as _ <-.
  unfold bind at 1.
  match goal with |- context [run_batches _ 0%nat ?w2] =>
    destruct (run_batches_spec (batches elements) 0 w2 [] eq_refl)
      as (r & w3 & evs & -> & Hfiles & Hland & Hlog & Hevs & Hr)
  end.
  cbn [db files log landuse txn landuse_id_seq] in Hfiles, Hland, Hlog, Hevs, Hr.
  rewrite <- !app_assoc in Hlog. cbn [app] in Hlog.
  destruct r as [e | n].
  { eexists (inl e), w3, (_ :: _ :: evs). repeat split; try eassumption.
    repeat constructor. assumption. }
  destruct Hr as (Hn & Hst & Hok & Htxn & Hseq & Hnn).
  rewrite concat_batches in Htxn, Hseq, Hnn. cbn [app] in Htxn.
  unfold bind at 1.
  destruct (pool_query_cases COMMIT w3) as [(e & -> & _) | (r2 & d2 & _ & He & ->)].
  { eexists (inl e), _, (_ :: _ :: evs ++ [_])%list. cbn [db files log landuse].
    rewrite Hlog, <- !app_assoc. cbn [app].
    split; [reflexivity | ]. split; [assumption | ]. split; [reflexivity | ].
    split; [assumption | ].
    repeat constructor. apply Forall_app. split; [assumption | ].
    repeat constructor. cbn. assumption. }
  cbn [exec] in He. unfold current in He. rewrite Htxn, Hseq in He.
  injection He as _ <-. unfold res_json, ret.
  eexists (inr _), _, (_ :: _ :: evs ++ [_])%list. cbn [db files log landuse].
  rewrite Hlog, <- !app_assoc. cbn [app].
  split; [reflexivity | ]. split; [assumption | ]. split; [reflexivity | ].
  split; [rewrite Hn; reflexivity | ]. split; [assumption | ].
  split; [reflexivity | ].
  eexists (_ :: _ :: evs). split; [reflexivity | ].
  split; [cbn [map ev_statement]; rewrite Hst; reflexivity | ].
  split; repeat constructor; assumption.
Qed.

(** The [catch] block: one [ROLLBACK], whose own fate is ignored, and a 500
    that carries the caught error. *)
Lemma upload_catch_spec (e : exn) (w : world) :
  exists (ok : bool) (w' : world),
    upload_catch e w =
    (inr (Response 500
            (ErrorBody (if String.eqb (message e) ""
                        then "Failed to upload and save GeoJSON"
                        else message e))), w') /\
    files w' = files w /\
    landuse (db w') = landuse (db w) /\
    txn (db w') = (if ok then None else txn (db w)) /\
    log w' = (log w ++ [Event ROLLBACK ok (landuse (db w))])%list.
Proof.
  unfold upload_catch, bind, swallow, res_status_json, ret.
  destruct (pool_query_cases ROLLBACK w) as [(e' & -> & _) | (r & d & _ & He & ->)].
  - exists false. eexists. cbn. repeat split.
  - cbn [exec] in He. injection He as _ <-. exists true. eexists. cbn. repeat split.
Qed.

(** The [finally] block removes the uploaded file and nothing else. *)
Lemma upload_finally_spec (path : string) (w : world) :
  upload_finally path w =
  (inr tt, World (db w) (faults w) (log w) (delete path (files w))).
Proof.
  unfold upload_finally, bind, fs_existsSync, fs_unlinkSync, ret.
  case_bool_decide as Hex; [reflexivity | ].
  f_equal. destruct w as [d f l fs]. cbn in *. f_equal.
  symmetry. apply delete_id. destruct (fs !! path) eqn:E; [ | reflexivity].
  exfalso. apply Hex. eauto.
Qed.

Lemma post_upload_run (filename : string) (w : world) :
  let path := path_resolve uploadsDir filename in
  post_upload (Some filename) w =
  match upload_try path w with
  | (inr resp, w1) =>
      (inr resp, World (db w1) (faults w1) (log w1) (delete path (files w1)))
  | (inl e, w1) =>
      match upload_catch e w1 with
      | (r, w2) => (r, World (db w2) (faults w2) (log w2) (delete path (files w2)))
      end
  end.
Proof.
  intros path. unfold post_upload, try_finally, try_catch. fold path.
  destruct (upload_try path w) as [[e | resp] w1].
  - destruct (upload_catch e w1) as [r w2]. rewrite upload_finally_spec. reflexivity.
  - rewrite upload_finally_spec. reflexivity.
Qed.

(** Whatever the [try] block throws becomes a 500 after one [ROLLBACK]. *)
Lemma post_upload_error (filename : string) (w w1 : world) (e : exn) :
  upload_try (path_resolve uploadsDir filename) w = (inl e, w1) ->
  exists (ok : bool) (w' : world),
    post_upload (Some filename) w =
    (inr (Response 500
            (ErrorBody (if String.eqb (message e) ""
                        then "Failed to upload and save GeoJSON"
                        else message e))), w') /\
    landuse (db w') = landuse (db w1) /\
    log w' = (log w1 ++ [Event ROLLBACK ok (landuse (db w1))])%list.
Proof.
  intros H. pose proof (post_upload_run filename w) as Hrun. cbv zeta in Hrun.
  rewrite H in Hrun.
  destruct (upload_catch_spec e w1) as (ok & w2 & Hc & _ & Hland & _ & Hlog).
  rewrite Hc in Hrun. exists ok. eexists. split; [exact Hrun | ].
  cbn [db log landuse]. split; assumption.
Qed.


(* ===================================================================== *)
(** ** The read handlers *)
(* ===================================================================== *)

Lemma or_default_limit (q : option qval) :
  or_default (parseInt (ToString_query q)) 1000 = page_limit q.
Proof. destruct q as [v | ]; reflexivity. Qed.

Lemma or_default_offset (q : option qval) :
  or_default (parseInt (ToString_query q)) 0 = page_offset q.
Proof.
  destruct q as [v | ]; [ | reflexivity]. unfold page_offset, or_default. cbn.
  destruct (parseInt (ToString v)) as [n | ]; [ | reflexivity].
  destruct (Z.eqb_spec n 0); congruence.
Qed.

Lemma get_land_use_ok (ql qo : option qval) (w : world) (rows : list row) :
  next_ok w ->
  select_page None (page_offset qo) (page_limit ql) (current (db w)) = inr rows ->
  fst (get_land_use ql qo w) = inr (Response 200 (FeatureCollection rows)).
Proof.
  intros Hok Hsel. unfold get_land_use. rewrite or_default_limit, or_default_offset.
  unfold try_catch, bind.
  rewrite (pool_query_ok _ w (Geojson rows) (db w) Hok) by (cbn [exec]; now rewrite Hsel).
  reflexivity.
Qed.

Lemma get_land_use_failed (ql qo : option qval) (w : world) (e : exn) :
  fst (pool_query (SELECT_geojson None (page_offset qo) (page_limit ql)) w) = inl e ->
  fst (get_land_use ql qo w)
  = inr (Response 500 (ErrorBody "Database error fetching land use")).
Proof.
  intros H. unfold get_land_use. rewrite or_default_limit, or_default_offset.
  unfold try_catch, bind.
  destruct (pool_query _ w) as [[e' | r] w1]; [reflexivity | discriminate].
Qed.

Lemma get_filter_ok (type : string) (ql qo : option qval) (w : world) (rows : list row) :
  next_ok w ->
  select_page (Some type) (page_offset qo) (page_limit ql) (current (db w)) = inr rows ->
  fst (get_filter type ql qo w) =
  inr (if Nat.eqb (length rows) 0
       then Response 404 (ErrorBody ("No features found with type '" ++ type ++ "'"))
       else Response 200 (FeatureCollection rows)).
Proof.
  intros Hok Hsel. unfold get_filter. rewrite or_default_limit, or_default_offset.
  unfold try_catch, bind.
  rewrite (pool_query_ok _ w (Geojson rows) (db w) Hok) by (cbn [exec]; now rewrite Hsel).
  cbn [lift geojson_of]. destruct (Nat.eqb (length rows) 0); reflexivity.
Qed.

Lemma get_filter_failed (type : string) (ql qo : option qval) (w : world) (e : exn) :
  fst (pool_query (SELECT_geojson (Some type) (page_offset qo) (page_limit ql)) w) = inl e ->
  fst (get_filter type ql qo w)
  = inr (Response 500 (ErrorBody "Database error filtering land use")).
Proof.
  intros H. unfold get_filter. rewrite or_default_limit, or_default_offset.
  unfold try_catch, bind.
  destruct (pool_query _ w) as [[e' | r] w1]; [reflexivity | discriminate].
Qed.

Lemma SUM_fold (l : list (option float)) (a : float) :
  SUM l (Some a)
  = Some (fold_left PrimFloat.add
            (flat_map (fun x => match x with Some v => [v] | None => [] end) l) a).
Proof.
  revert a. induction l as [ | [v | ] l IH]; intros a; cbn [SUM flat_map];
    [reflexivity | | apply IH].
  rewrite IH. reflexivity.
Qed.

Lemma SUM_total_area (rows : table) :
  SUM (map (fun r => option_map ST_Area (row_geom r)) rows) None = total_area rows.
Proof.
  unfold total_area, areas.
  induction rows as [ | [i [g | ] t] rows IH]; cbn [map SUM flat_map row_geom option_map];
    [reflexivity | | exact IH].
  rewrite SUM_fold. cbn [app]. f_equal. f_equal.
  clear. induction rows as [ | [i [g | ] t] rows IH];
    cbn [map flat_map row_geom option_map app]; [reflexivity | now rewrite IH | exact IH].
Qed.

Lemma get_area_ok (type : string) (w : world) :
  next_ok w ->
  fst (get_area type w) =
  inr (let rows := matching type (current (db w)) in
       let area := or_zero (total_area rows) in
       if Nat.eqb (length rows) 0
       then Response 404 (ErrorBody ("No features found with type '" ++ type ++ "'"))
       else Response 200
              (AreaBody type area (PrimFloat.div area 10000%float)
                        (Z.of_nat (length rows)))).
Proof.
  intros Hok. unfold get_area, try_catch, bind.
  rewrite (pool_query_ok _ w _ (db w) Hok) by (cbn [exec]; reflexivity).
  cbv zeta. fold (matching type (current (db w))). rewrite SUM_total_area.
  destruct (length (matching type (current (db w)))) as [ | n] eqn:Hlen; reflexivity.
Qed.

Lemma get_area_failed (type : string) (w : world) (e : exn) :
  fst (pool_query (SELECT_area type) w) = inl e ->
  fst (get_area type w)
  = inr (Response 500 (ErrorBody "Database error calculating area")).
Proof.
  intros H. unfold get_area, try_catch, bind.
  destruct (pool_query _ w) as [[e' | r] w1]; [reflexivity | discriminate].
Qed.

(* ===================================================================== *)
(** ** Order and case *)
(* ===================================================================== *)

Lemma Sorted_skipn {A : Type} (R : A -> A -> Prop) (n : nat) (l : list A) :
  Sorted R l -> Sorted R (skipn n l).
Proof.
  revert l. induction n as [ | n IH]; intros l H; [exact H | ].
  destruct l as [ | a l]; [constructor | ]. cbn. apply IH.
  now inversion H.
Qed.

Lemma Sorted_firstn {A : Type} (R : A -> A -> Prop) (n : nat) (l : list A) :
  Sorted R l -> Sorted R (firstn n l).
Proof.
  revert l. induction n as [ | n IH]; intros l H; [constructor | ].
  destruct l as [ | a l]; [constructor | ]. cbn.
  inversion H as [ | ? ? Hs Hh]; subst. constructor; [now apply IH | ].
  destruct Hh as [ | b l' Hab]; destruct n; cbn; constructor. exact Hab.
Qed.

Lemma sort_id_le (t : table) : Sorted id_le (RowSort.sort t).
Proof.
  pose proof (RowSort.Sorted_sort t) as H.
  induction H as [ | a l Hs IH Hh]; constructor; [assumption | ].
  destruct Hh as [ | b l Hab]; constructor.
  unfold id_le. apply Z.leb_le. exact Hab.
Qed.

Lemma same_letter_lower (a b : ascii) :
  same_letter a b = true -> lower_char a = lower_char b.
Proof.
  assert (forall lo up, upper_of lo up = true -> lower_char lo = lower_char up) as Hup.
  { intros lo up H. unfold upper_of, is_upper in H.
    apply andb_true_iff in H as [Hu He]. apply Ascii.eqb_eq in He. subst lo.
    unfold lower_char. rewrite Hu. apply andb_true_iff in Hu as [H1 H2].
    apply Nat.leb_le in H1, H2.
    rewrite nat_ascii_embedding by lia.
    replace (Nat.leb (nat_of_ascii up + 32) 90) with false
      by (symmetry; apply Nat.leb_gt; lia).
    now rewrite andb_false_r. }
  unfold same_letter. intros H.
  apply orb_true_iff in H as [H | H]; [apply orb_true_iff in H as [H | H] | ].
  - apply Ascii.eqb_eq in H. now subst.
  - now apply Hup.
  - symmetry. now apply Hup.
Qed.

Lemma differ_only_in_case_LOWER (s t : string) :
  differ_only_in_case s t = true -> LOWER s = LOWER t.
Proof.
  revert t. induction s as [ | a s IH]; intros [ | b t] H; cbn in H;
    try discriminate; [reflexivity | ].
  apply andb_true_iff in H as [Hab Hst]. cbn.
  rewrite (same_letter_lower a b Hab), (IH t Hst). reflexivity.
Qed.

Lemma type_matches_LOWER (s t : string) (r : row) :
  LOWER s = LOWER t -> type_matches s r = type_matches t r.
Proof. intros H. unfold type_matches. now rewrite H. Qed.

(* ===================================================================== *)
(** ** The upload handler as a whole *)
(* ===================================================================== *)

(** The two ways an upload that came with a file can end. *)
Lemma post_upload_spec (filename : string) (w : world) :
  let path := path_resolve uploadsDir filename in
  exists (r : response) (w' : world) (evs : list event),
    post_upload (Some filename) w = (inr r, w') /\
    files w' = delete path (files w) /\
    log w' = (log w ++ evs)%list /\
    ((exists features inner,
         uploaded_features (files w !! path) = Some features /\
         Forall (fun f => f <> JNull) features /\
         r = Response 200 (MessageBody (success_message (reported_count features))) /\
         db w' = Database (replacement (db w) features) None
                          (landuse_id_seq (db w) + Z.of_nat (length (kept features))) /\
         evs = (inner ++ [Event COMMIT true (replacement (db w) features)])%list /\
         map ev_statement inner
         = BEGIN :: DELETE_FROM_landuse :: insert_statements features /\
         Forall (fun ev => ev_ok ev = true) inner /\
         Forall (fun ev => ev_landuse ev = landuse (db w)) inner)
     \/
     (exists e w1 (ok : bool) inner,
         upload_try path w = (inl e, w1) /\
         r = Response 500
               (ErrorBody (if String.eqb (message e) ""
                           then "Failed to upload and save GeoJSON"
                           else message e)) /\
         landuse (db w') = landuse (db w) /\
         log w1 = (log w ++ inner)%list /\
         evs = (inner ++ [Event ROLLBACK ok (landuse (db w))])%list /\
         Forall (fun ev => ev_landuse ev = landuse (db w)) inner)).
Proof.
  intros path.
  assert (forall e w1 inner,
             upload_try path w = (inl e, w1) ->
             files w1 = files w -> landuse (db w1) = landuse (db w) ->
             log w1 = (log w ++ inner)%list ->
             Forall (fun ev => ev_landuse ev = landuse (db w)) inner ->
             exists (r : response) (w' : world) (evs : list event),
               post_upload (Some filename) w = (inr r, w') /\
               files w' = delete path (files w) /\
               log w' = (log w ++ evs)%list /\
               exists e w1 (ok : bool) inner,
                 upload_try path w = (inl e, w1) /\
                 r = Response 500
                       (ErrorBody (if String.eqb (message e) ""
                                   then "Failed to upload and save GeoJSON"
                                   else message e)) /\
                 landuse (db w') = landuse (db w) /\
                 log w1 = (log w ++ inner)%list /\
                 evs = (inner ++ [Event ROLLBACK ok (landuse (db w))])%list /\
                 Forall (fun ev => ev_landuse ev = landuse (db w)) inner) as Hfail.
  { intros e w1 inner Htry Hfiles Hland Hlog Hinner.
    pose proof (post_upload_run filename w) as Hrun. cbv zeta in Hrun. fold path in Hrun.
    rewrite Htry in Hrun.
    destruct (upload_catch_spec e w1) as (ok & w2 & Hc & Hf2 & Hl2 & _ & Hlog2).
    rewrite Hc in Hrun.
    eexists _, _, (inner ++ [Event ROLLBACK ok (landuse (db w))])%list.
    split; [exact Hrun | ]. cbn [files log db].
    split; [now rewrite Hf2, Hfiles | ].
    split; [now rewrite Hlog2, Hlog, Hland, app_assoc | ].
    exists e, w1, ok, inner. repeat split; try assumption.
    now rewrite Hl2. }
  destruct (uploaded_features (files w !! path)) as [features | ] eqn:Hup.
  - pose proof (upload_try_valid path w features Hup) as Htry.
    destruct (upload_txn_spec features w) as (r & w1 & evs & Htxn & Hfiles & Hlog & Hr).
    rewrite Htxn in Htry. destruct r as [e | resp].
    + destruct Hr as [Hland Hevs].
      destruct (Hfail e w1 evs Htry Hfiles Hland Hlog Hevs) as (r & w' & evs' & H1 & H2 & H3 & H4).
      exists r, w', evs'. repeat split; try assumption. right. exact H4.
    + destruct Hr as (-> & Hnn & Hdb & inner & -> & Hst & Hok & Hinner).
      pose proof (post_upload_run filename w) as Hrun. cbv zeta in Hrun. fold path in Hrun.
      rewrite Htry in Hrun.
      eexists _, _, _. split; [exact Hrun | ]. cbn [files log db].
      split; [now rewrite Hfiles | ]. split; [exact Hlog | ].
      left. exists features, inner. repeat split; assumption.
  - destruct (upload_try_invalid path w Hup) as [e Htry].
    destruct (Hfail e w [] Htry eq_refl eq_refl) as (r & w' & evs' & H1 & H2 & H3 & H4);
      [now rewrite app_nil_r | constructor | ].
    exists r, w', evs'. repeat split; try assumption. right. exact H4.
Qed.

(** With a healthy database, an upload in which every feature is skipped
    runs [BEGIN], [DELETE], [COMMIT] and nothing else. *)
Lemma upload_txn_all_skipped (features : list json) (w : world) :
  no_fault w ->
  Forall (fun f => f <> JNull) features ->
  kept features = [] ->
  upload_txn features w =
  (inr (Response 200 (MessageBody (success_message 0))),
   World (Database [] None (landuse_id_seq (db w)))
         (tl (tl (tl (faults w))))
         (log w ++ [Event BEGIN true (landuse (db w));
                    Event DELETE_FROM_landuse true (landuse (db w));
                    Event COMMIT true []])
         (files w)).
Proof.
  intros Hnf Hnn Hk. unfold upload_txn.
  unfold bind at 1.
  rewrite (pool_query_ok BEGIN w NoRows _ (no_fault_next_ok w Hnf) eq_refl).
  destruct w as [d f l fs]. cbn [db faults log files] in *.
  assert (no_fault (World d (tl f) l fs)) as Hnf1 by (eapply no_fault_tl; eassumption).
  assert (no_fault (World d (tl (tl f)) l fs)) as Hnf2 by (eapply no_fault_tl; eassumption).
  unfold bind at 1.
  erewrite pool_query_ok;
    [ | apply no_fault_next_ok; eapply no_fault_tl; exact Hnf | reflexivity].
  cbn [db faults log files write txn landuse landuse_id_seq].
  unfold bind at 1.
  rewrite run_batches_nothing by (rewrite concat_batches; assumption).
  unfold bind at 1.
  erewrite pool_query_ok;
    [ | apply no_fault_next_ok; eapply no_fault_tl; exact Hnf1 | reflexivity].
  cbn [db faults log files current txn landuse landuse_id_seq].
  unfold res_json, ret. rewrite <- !app_assoc. reflexivity.
Qed.

(** The answer of the filter and area routes as a function of what the
    query returned. *)
Lemma get_filter_fst (type : string) (ql qo : option qval) (w : world) :
  fst (get_filter type ql qo w) =
  match fst (pool_query (SELECT_geojson (Some type) (page_offset qo) (page_limit ql)) w) with
  | inr (Geojson rows) =>
      inr (if Nat.eqb (length rows) 0
           then Response 404 (ErrorBody ("No features found with type '" ++ type ++ "'"))
           else Response 200 (FeatureCollection rows))
  | _ => inr (Response 500 (ErrorBody "Database error filtering land use"))
  end.
Proof.
  unfold get_filter. rewrite or_default_limit, or_default_offset.
  unfold try_catch, bind.
  destruct (pool_query _ w) as [[e | [ | rows | n a]] w1]; cbn; try reflexivity.
  destruct (Nat.eqb (length rows) 0); reflexivity.
Qed.

Lemma get_area_fst (type : string) (w : world) :
  fst (get_area type w) =
  match fst (pool_query (SELECT_area type) w) with
  | inr (AreaRow count total) =>
      inr (if count =? 0
           then Response 404 (ErrorBody ("No features found with type '" ++ type ++ "'"))
           else let area := or_zero total in
                Response 200 (AreaBody type area (PrimFloat.div area 10000%float) count))
  | _ => inr (Response 500 (ErrorBody "Database error calculating area"))
  end.
Proof.
  unfold get_area, try_catch, bind.
  destruct (pool_query _ w) as [[e | [ | rows | n a]] w1]; cbn; try reflexivity.
  destruct (n =? 0); reflexivity.
Qed.

(** Two statements with the same effect on the database get the same
    answer from the pool. *)
Lemma pool_query_fst (s1 s2 : statement) (w : world) :
  (forall d,
      match exec s1 d, exec s2 d with
      | inl e1, inl e2 => e1 = e2
      | inr (r1, _), inr (r2, _) => r1 = r2
      | _, _ => False
      end) ->
  fst (pool_query s1 w) = fst (pool_query s2 w).
Proof.
  intros H. specialize (H (db w)). unfold pool_query.
  destruct (faults w) as [ | [msg | ] rest]; try reflexivity;
    destruct (exec s1 (db w)) as [e1 | [r1 d1]], (exec s2 (db w)) as [e2 | [r2 d2]];
    cbn; try contradiction; now subst.
Qed.

Lemma lookup_remove_member (k : string) (members : list (string * json)) :
  lookup_member k (remove_member k members) = None.
Proof.
  induction members as [ | [k' v] rest IH]; [reflexivity | ]. cbn.
  destruct (String.eqb k k') eqn:E; [exact IH | ]. cbn. now rewrite E.
Qed.

Lemma without_label_type (f : json) : type_of (without_label f) = None.
Proof.
  unfold type_of, properties_of. destruct f as [ | | | | | members]; try reflexivity.
  cbn [without_label get]. induction members as [ | [k v] rest IH]; [reflexivity | ].
  cbn [without_label_members]. destruct (String.eqb "properties" k) eqn:E.
  - cbn [lookup_member]. rewrite E.
    destruct v as [ | | | | | props]; try reflexivity.
    cbn [get_optional]. apply lookup_remove_member.
  - cbn [lookup_member]. rewrite E. exact IH.
Qed.

(* ===================================================================== *)
(** ** Contracts of the routes *)
(* ===================================================================== *)


(** C8.  An upload that came with a file always answers, and afterwards the
    upload directory is what it was before without the uploaded file:
    whether the request succeeded, failed the validation or failed in the
    database, the temporary file is gone and no other file is touched. *)
Theorem upload_cleanup (w : world) (filename : string) :
  let path := path_resolve uploadsDir filename in
  let run := post_upload (Some filename) w in
  (exists resp, fst run = inr resp) /\
  files (snd run) !! path = None /\
  files (snd run) = delete path (files w).
Proof.
  intros path run. subst run.
  destruct (post_upload_spec filename w) as (r & w' & evs & Hrun & Hfiles & _).
  fold path in Hfiles. rewrite Hrun. cbn [fst snd].
  split; [eauto | ]. split; [ | exact Hfiles].
  rewrite Hfiles. apply lookup_delete_eq.
Qed.

(** C3.  A successful upload (status 200) read a file that passed the
    validation; the count in its success message is the sum, over the
    batches, of the input size of every batch that yields at least one row;
    the statements it sent are [BEGIN], [DELETE], one [INSERT] per such
    batch (none for a batch that yields no row) and [COMMIT]; and the
    batches are consecutive runs of one to 500 features in input order. *)
Theorem upload_reported_count (w : world) (filename : string) (resp : response) :
  let path := path_resolve uploadsDir filename in
  let run := post_upload (Some filename) w in
  fst run = inr resp ->
  status resp = 200 ->
  exists features,
    uploaded_features (files w !! path) = Some features /\
    body resp = MessageBody (success_message (reported_count features)) /\
    reported_count features
    = list_sum (map (fun batch => match kept batch with
                                  | [] => 0%nat
                                  | _ :: _ => length batch
                                  end) (batches features)) /\
    (exists evs,
        log (snd run) = (log w ++ evs)%list /\
        map ev_statement evs
        = (BEGIN :: DELETE_FROM_landuse :: insert_statements features ++ [COMMIT])%list) /\
    insert_statements features
    = flat_map (fun batch => match kept batch with
                             | [] => []
                             | _ :: _ => [INSERT_INTO_landuse (kept batch)]
                             end) (batches features) /\
    batches features
    = map (fun k => slice features (k * 500) (k * 500 + 500))
          (seq 0 ((length features + 499) / 500)) /\
    concat (batches features) = features /\
    Forall (fun batch => 0 < length batch <= 500)%nat (batches features).
Proof.
  intros path run Hresp Hstatus. subst run.
  destruct (post_upload_spec filename w) as (r & w' & evs & Hrun & _ & Hlog & Hcases).
  fold path in Hcases. rewrite Hrun in Hresp |- *. cbn [fst snd] in *.
  injection Hresp as ->.
  destruct Hcases as [(features & inner & Hup & _ & -> & _ & -> & Hst & _)
                     | (e & w1 & ok & inner & _ & -> & _)]; [ | discriminate].
  exists features. split; [exact Hup | ]. split; [reflexivity | ].
  split; [reflexivity | ].
  split; [eexists; split; [exact Hlog | rewrite map_app, Hst; reflexivity] | ].
  split; [reflexivity | ]. split; [apply batches_shape | ].
  split; [apply concat_batches | ].
  apply batches_size.
Qed.

(** C9.  For a file that passes the validation, holds no [null] in its
    features array and has no feature with both a non-null geometry and a
    non-null [properties.type] (an empty array included), on a database
    that does not fail: the upload sends [BEGIN], [DELETE] and [COMMIT],
    leaves the table empty with no transaction open, and answers 200 with
    the success message for 0 features. *)
Theorem upload_all_skipped (w : world) (filename : string) (features : list json) :
  let path := path_resolve uploadsDir filename in
  let run := post_upload (Some filename) w in
  uploaded_features (files w !! path) = Some features ->
  Forall (fun f => f <> JNull) features ->
  Forall (fun f => non_null (geometry_of f) && non_null (type_of f) = false) features ->
  no_fault w ->
  fst run = inr (Response 200
                   (MessageBody "GeoJSON uploaded and database updated successfully! Inserted 0 features.")) /\
  landuse (db (snd run)) = [] /\
  txn (db (snd run)) = None /\
  map ev_statement (log (snd run))
  = (map ev_statement (log w) ++ [BEGIN; DELETE_FROM_landuse; COMMIT])%list.
Proof.
  intros path run Hup Hnn Hskip Hnf. subst run.
  assert (kept features = []) as Hk.
  { clear Hup Hnn. induction Hskip as [ | f rest Hf _ IH]; [reflexivity | ].
    cbn [kept flat_map]. fold (kept rest). rewrite IH, app_nil_r.
    destruct (row_of f) as [p | ] eqn:Hr; [ | reflexivity].
    assert (insertable f = true) as Hi by (apply row_of_insertable; eauto).
    unfold insertable in Hi. apply andb_true_iff in Hi as [Hg Ht].
    rewrite (truthy_non_null _ Hg), (truthy_non_null _ Ht) in Hf. discriminate. }
  pose proof (post_upload_run filename w) as Hrun. cbv zeta in Hrun. fold path in Hrun.
  rewrite (upload_try_valid path w features Hup) in Hrun.
  rewrite (upload_txn_all_skipped features w Hnf Hnn Hk) in Hrun.
  rewrite Hrun. cbn [fst snd db log landuse txn].
  split; [reflexivity | ]. split; [reflexivity | ]. split; [reflexivity | ].
  rewrite map_app. reflexivity.
Qed.

(** C2 (as amended).  In a batch without a [null] element the loop body
    never throws: it pushes one parameter pair for every feature whose
    geometry and [properties.type] are both truthy, in input order, and
    nothing for any other feature, which is skipped without aborting the
    batch; the rows of the batch are as many as the features that pass. *)
Theorem upload_skip_rule (batch : list json) :
  Forall (fun f => f <> JNull) batch ->
  batch_forEach batch [] = inr (kept batch) /\
  length (kept batch) = length (List.filter insertable batch) /\
  forall f, In f batch ->
    (insertable f = true ->
     exists g t, geometry_of f = Some g /\ type_of f = Some t /\
                 feature_params f = inr (Some (JSON_stringify g, t))) /\
    (insertable f = false -> feature_params f = inr None).
Proof.
  intros Hnn. split; [exact (batch_forEach_spec batch [] Hnn) | ].
  split; [apply kept_length | ].
  intros f Hin. rewrite Forall_forall in Hnn.
  rewrite (feature_params_spec f) by (apply Hnn, list_elem_of_In, Hin).
  unfold row_of. split; intros Hi; rewrite Hi.
  - unfold insertable in Hi. apply andb_true_iff in Hi as [Hg Ht].
    destruct (geometry_of f) as [g | ]; [ | discriminate].
    destruct (type_of f) as [t | ]; [ | discriminate]. eauto.
  - destruct (geometry_of f), (type_of f); reflexivity.
Qed.

(** C10.  A feature whose [properties.type] is present but is the empty
    string, 0 or [false] is skipped, exactly as the same feature without the
    label is; and a feature for which the loop body pushes a row has a
    truthy [properties.type]. *)
Theorem falsy_label_skipped (f : json) :
  (forall label,
      type_of f = Some label ->
      In label [JStr ""; JNum 0; JBool false] ->
      feature_params f = inr None /\
      type_of (without_label f) = None /\
      feature_params (without_label f) = inr None) /\
  (forall p, feature_params f = inr (Some p) -> truthy (type_of f) = true).
Proof.
  split.
  - intros label Hlabel Hin.
    assert (f <> JNull) as Hf by (intros ->; discriminate Hlabel).
    assert (truthy (type_of f) = false) as Ht.
    { rewrite Hlabel. cbn in Hin.
      destruct Hin as [<- | [<- | [<- | []]]]; reflexivity. }
    assert (forall f', f' <> JNull -> truthy (type_of f') = false ->
                       feature_params f' = inr None) as Hskip.
    { intros f' Hf' Ht'. rewrite (feature_params_spec f' Hf').
      unfold row_of, insertable. rewrite Ht', andb_false_r.
      destruct (geometry_of f'), (type_of f'); reflexivity. }
    split; [apply Hskip; assumption | ].
    split; [apply without_label_type | ].
    apply Hskip.
    + destruct f; cbn; congruence.
    + now rewrite without_label_type.
  - intros p Hp. apply feature_params_inr in Hp as [Hf Hp].
    assert (insertable f = true) as Hi by (apply row_of_insertable; eauto).
    unfold insertable in Hi. now apply andb_true_iff in Hi as [_ Ht].
Qed.

(** C4 (as amended).  When the query is not scheduled to fail and the page
    limit and offset are not negative, GET /api/land_use answers 200 with a
    FeatureCollection whose features are the rows of the table in ascending
    [id] order without the first [offset] ones, cut after [limit] rows: at
    most [limit] of them, none when no row is left.  The limit is the parsed
    parameter, or 1000 when it is absent, not a number or zero; the offset
    is the parsed parameter, or 0 when it is absent or not a number. *)
Theorem land_use_pagination (w : world) (query_limit query_offset : option qval) :
  let limit := page_limit query_limit in
  let offset := page_offset query_offset in
  let sorted := RowSort.sort (current (db w)) in
  next_ok w -> 0 <= limit -> 0 <= offset ->
  exists features,
    fst (get_land_use query_limit query_offset w)
    = inr (Response 200 (FeatureCollection features)) /\
    features = firstn (Z.to_nat limit) (skipn (Z.to_nat offset) sorted) /\
    Permutation sorted (current (db w)) /\
    Sorted id_le sorted /\
    Sorted id_le features /\
    (length features <= Z.to_nat limit)%nat /\
    length features
    = Nat.min (Z.to_nat limit) (length (current (db w)) - Z.to_nat offset).
Proof.
  intros limit offset sorted Hok Hlimit Hoffset.
  exists (firstn (Z.to_nat limit) (skipn (Z.to_nat offset) sorted)).
  split.
  { apply get_land_use_ok; [exact Hok | ]. unfold select_page.
    fold limit offset.
    destruct (Z.ltb_spec offset 0); [lia | ].
    destruct (Z.ltb_spec limit 0); [lia | ]. reflexivity. }
  split; [reflexivity | ].
  assert (Permutation sorted (current (db w))) as Hperm
      by (symmetry; apply RowSort.Permuted_sort).
  split; [exact Hperm | ].
  split; [apply sort_id_le | ].
  split; [apply Sorted_firstn, Sorted_skipn, sort_id_le | ].
  rewrite length_firstn, length_skipn, (Permutation_length Hperm).
  split; [apply Nat.le_min_l | reflexivity].
Qed.

(** C5.  When the query is not scheduled to fail, GET /api/area/:type
    answers 404 with an error that names the type if no row matches the
    type case-insensitively; otherwise it answers 200 with the type, the
    total area in square metres, that figure divided by 10000 (the division
    of doubles) as hectares, and the number of matching rows as
    [featureCount].  The total is the sum, from left to right, of the areas
    of the matching rows that have a geometry; the figure sent is that total,
    with zero in place of a total that is zero, negative zero or not a
    number. *)
Theorem area_contract (w : world) (type : string) :
  next_ok w ->
  let rows := matching type (current (db w)) in
  let total := match areas rows with
               | [] => 0%float
               | a :: rest => fold_left PrimFloat.add rest a
               end in
  let area := if (PrimFloat.is_nan total || PrimFloat.is_zero total)%bool
              then 0%float else total in
  (length rows = 0%nat ->
   fst (get_area type w)
   = inr (Response 404 (ErrorBody ("No features found with type '" ++ type ++ "'")))) /\
  (length rows <> 0%nat ->
   fst (get_area type w)
   = inr (Response 200
            (AreaBody type area (PrimFloat.div area 10000%float)
                      (Z.of_nat (length rows))))).
Proof.
  intros Hok rows total area. rewrite (get_area_ok type w Hok). cbv zeta. fold rows.
  assert (Harea : or_zero (total_area rows) = area).
  { unfold area, total, total_area, or_zero.
    destruct (areas rows) as [ | a rest]; [ | reflexivity].
    now destruct (PrimFloat.is_nan 0 || PrimFloat.is_zero 0)%bool. }
  rewrite Harea. split; intros H.
  - now rewrite H.
  - destruct (length rows) as [ | n]; [congruence | reflexivity].
Qed.

(** C6.  Two category strings that differ only in letter case select the
    same rows: the [WHERE] clause keeps the same rows of any table, the
    filter query and the area query return the same result, the filter
    route answers 200 with the same features for both, and the area route
    answers 200 with the same figures for both. *)
Theorem category_case_insensitive (s t : string) :
  differ_only_in_case s t = true ->
  (forall tbl, matching s tbl = matching t tbl) /\
  (forall d offset limit,
      exec (SELECT_geojson (Some s) offset limit) d
      = exec (SELECT_geojson (Some t) offset limit) d) /\
  (forall d, exec (SELECT_area s) d = exec (SELECT_area t) d) /\
  (forall w ql qo features,
      fst (get_filter s ql qo w) = inr (Response 200 (FeatureCollection features)) <->
      fst (get_filter t ql qo w) = inr (Response 200 (FeatureCollection features))) /\
  (forall w a h n,
      fst (get_area s w) = inr (Response 200 (AreaBody s a h n)) <->
      fst (get_area t w) = inr (Response 200 (AreaBody t a h n))).
Proof.
  intros H. apply differ_only_in_case_LOWER in H.
  assert (forall tbl, matching s tbl = matching t tbl) as Hm.
  { intros tbl. unfold matching. apply filter_ext. intros r.
    now apply type_matches_LOWER. }
  assert (forall d offset limit,
             exec (SELECT_geojson (Some s) offset limit) d
             = exec (SELECT_geojson (Some t) offset limit) d) as Hsel.
  { intros d offset limit. cbn [exec]. unfold select_page.
    fold (matching s (current d)) (matching t (current d)). now rewrite Hm. }
  assert (forall d, exec (SELECT_area s) d = exec (SELECT_area t) d) as Harea.
  { intros d. cbn [exec].
    fold (matching s (current d)) (matching t (current d)). now rewrite Hm. }
  split; [exact Hm | ]. split; [exact Hsel | ]. split; [exact Harea | ].
  split.
  - intros w ql qo features. rewrite !get_filter_fst.
    rewrite (pool_query_fst (SELECT_geojson (Some s) (page_offset qo) (page_limit ql))
                            (SELECT_geojson (Some t) (page_offset qo) (page_limit ql)) w).
    + destruct (fst (pool_query _ w)) as [e | [ | rows | c a]];
        try (split; intros; discriminate).
      destruct (Nat.eqb (length rows) 0); [split; intros; discriminate | reflexivity].
    + intros d. rewrite Hsel. destruct (exec _ d) as [e | [r d']]; reflexivity.
  - intros w a h n. rewrite !get_area_fst.
    rewrite (pool_query_fst (SELECT_area s) (SELECT_area t) w).
    + destruct (fst (pool_query _ w)) as [e | [ | rows | c tot]];
        try (split; intros; discriminate).
      destruct (c =? 0); [split; intros; discriminate | ].
      cbv zeta. split; intros [= <- <- <-]; reflexivity.
    + intros d. rewrite Harea. destruct (exec _ d) as [e | [r d']]; reflexivity.
Qed.

(** C7 (as amended).  When its database query fails with an error [e], each
    of the three read routes answers 500 with a fixed text of its own, which
    does not depend on [e]; the upload route answers 500 with [e.message],
    or with a fixed text when that message is empty, for any error [e] that
    its [try] block throws. *)
Theorem database_error_responses (w : world) :
  (forall ql qo e,
      fst (pool_query (SELECT_geojson None (page_offset qo) (page_limit ql)) w) = inl e ->
      fst (get_land_use ql qo w)
      = inr (Response 500 (ErrorBody "Database error fetching land use"))) /\
  (forall type ql qo e,
      fst (pool_query (SELECT_geojson (Some type) (page_offset qo) (page_limit ql)) w) = inl e ->
      fst (get_filter type ql qo w)
      = inr (Response 500 (ErrorBody "Database error filtering land use"))) /\
  (forall type e,
      fst (pool_query (SELECT_area type) w) = inl e ->
      fst (get_area type w)
      = inr (Response 500 (ErrorBody "Database error calculating area"))) /\
  (forall filename e w1,
      upload_try (path_resolve uploadsDir filename) w = (inl e, w1) ->
      fst (post_upload (Some filename) w)
      = inr (Response 500
               (ErrorBody (if String.eqb (message e) ""
                           then "Failed to upload and save GeoJSON"
                           else message e)))).
Proof.
  split; [intros ql qo e; apply get_land_use_failed | ].
  split; [intros type ql qo e; apply get_filter_failed | ].
  split; [intros type e; apply get_area_failed | ].
  intros filename e w1 Htry.
  destruct (post_upload_error filename w w1 e Htry) as (ok & w' & -> & _).
  reflexivity.
Qed.


(* ===================================================================== *)
(** ** Further properties: the boundary route *)
(* ===================================================================== *)

(** X1.  A boundary request changes nothing and sends no query.  It answers
    404 with an error that names the level when the boundary file does not
    exist, 200 with the parsed content of the file as it is when the file
    parses, and otherwise the exception of [JSON.parse] leaves the handler
    uncaught. *)
Theorem boundary_contract (l : level) (w : world) :
  snd (get_boundary l w) = w /\
  fst (get_boundary l w) =
  match files w !! boundary_file l with
  | None =>
      inr (JsonResponse 404
             (JObj [("error", JStr (level_name l ++ " boundary not found"))]))
  | Some (inr data) => inr (JsonResponse 200 data)
  | Some (inl e) => inl e
  end.
Proof.
  unfold get_boundary, bind, fs_existsSync, read_json, ret. cbv zeta.
  destruct (files w !! boundary_file l) as [[e | data] | ] eqn:E;
    unfold content in *; rewrite ?E.
  - rewrite bool_decide_eq_true_2 by eauto. cbn [negb]. rewrite E.
    split; reflexivity.
  - rewrite bool_decide_eq_true_2 by eauto. cbn [negb]. rewrite E.
    split; reflexivity.
  - rewrite bool_decide_eq_false_2 by apply is_Some_None.
    split; reflexivity.
Qed.

Lemma append_cancel_l (s a b : string) : s ++ a = s ++ b -> a = b.
Proof.
  apply (inj (String.append s)).
Qed.

Lemma append_assoc_string (a b c : string) : (a ++ b) ++ c = a ++ (b ++ c).
Proof.
  induction a as [ | x a IH]; [reflexivity | ].
  change (String x ((a ++ b) ++ c) = String x (a ++ b ++ c)). now rewrite IH.
Qed.

(** No upload is stored where a boundary file lives. *)
Lemma boundary_file_not_upload (l : level) (filename : string) :
  boundary_file l <> path_resolve uploadsDir filename.
Proof.
  unfold boundary_file, path_resolve, uploadsDir. rewrite append_assoc_string.
  intros H. apply append_cancel_l in H. discriminate H.
Qed.

(** X2.  An upload stored under a flat file name, however it ends, leaves
    the boundary files alone: every boundary request gets the same answer
    after the upload as before it. *)
Theorem upload_keeps_boundaries (w : world) (filename : string) (l : level) :
  flat_name filename = true ->
  let w' := snd (post_upload (Some filename) w) in
  files w' !! boundary_file l = files w !! boundary_file l /\
  fst (get_boundary l w') = fst (get_boundary l w).
Proof.
  intros _ w'. subst w'.
  assert (files (snd (post_upload (Some filename) w)) !! boundary_file l
          = files w !! boundary_file l) as H.
  { destruct (post_upload_spec filename w) as (r & w' & evs & Hrun & Hfiles & _).
    rewrite Hrun. cbn [snd]. rewrite Hfiles.
    apply lookup_delete_ne. intros E. symmetry in E.
    exact (boundary_file_not_upload l filename E). }
  split; [exact H | ].
  rewrite (proj2 (boundary_contract l w)).
  rewrite (proj2 (boundary_contract l (snd (post_upload (Some filename) w)))).
  unfold content in *. rewrite H. reflexivity.
Qed.

(* ===================================================================== *)
(** ** Further properties: the read routes *)
(* ===================================================================== *)

Lemma pool_query_select (s : statement) (w : world) :
  (forall d r d', exec s d = inr (r, d') -> d' = d) ->
  only_asked s w (snd (pool_query s w)).
Proof.
  intros Hex. unfold only_asked.
  destruct (pool_query_cases s w) as [(e & -> & _) | (r & d & _ & He & ->)]; cbn.
  - repeat split. now exists false.
  - apply Hex in He. subst d. repeat split. now exists true.
Qed.

Lemma exec_select_geojson (type : option string) (offset limit : Z)
      (d : database) (r : result) (d' : database) :
  exec (SELECT_geojson type offset limit) d = inr (r, d') -> d' = d.
Proof.
  cbn [exec]. destruct (select_page type offset limit (current d)); congruence.
Qed.

Lemma exec_select_area (type : string) (d : database) (r : result) (d' : database) :
  exec (SELECT_area type) d = inr (r, d') -> d' = d.
Proof. cbn [exec]. congruence. Qed.

(** X3.  The three read routes never change the table, the open
    transaction, the sequence or the files: each sends exactly one [SELECT],
    with the page limit and offset it parsed, and nothing else. *)
Theorem read_routes_only_ask (w : world) (type : string) (ql qo : option qval) :
  only_asked (SELECT_geojson None (page_offset qo) (page_limit ql)) w
             (snd (get_land_use ql qo w)) /\
  only_asked (SELECT_geojson (Some type) (page_offset qo) (page_limit ql)) w
             (snd (get_filter type ql qo w)) /\
  only_asked (SELECT_area type) w (snd (get_area type w)).
Proof.
  split; [ | split].
  - pose proof (pool_query_select (SELECT_geojson None (page_offset qo) (page_limit ql)) w
                  (exec_select_geojson None _ _)) as H.
    unfold get_land_use. rewrite or_default_limit, or_default_offset.
    unfold try_catch, bind. destruct (pool_query _ w) as [[e | r] w1]; cbn in *; [exact H | ].
    destruct (geojson_of r); cbn; exact H.
  - pose proof (pool_query_select (SELECT_geojson (Some type) (page_offset qo) (page_limit ql)) w
                  (exec_select_geojson (Some type) _ _)) as H.
    unfold get_filter. rewrite or_default_limit, or_default_offset.
    unfold try_catch, bind. destruct (pool_query _ w) as [[e | r] w1]; cbn in *; [exact H | ].
    destruct (geojson_of r) as [e | rows]; cbn; [exact H | ].
    destruct (Nat.eqb (length rows) 0); cbn; exact H.
  - pose proof (pool_query_select (SELECT_area type) w (exec_select_area type)) as H.
    unfold get_area, try_catch, bind.
    destruct (pool_query _ w) as [[e | [ | rows | n a]] w1]; cbn in *; try exact H.
    destruct (n =? 0); cbn; exact H.
Qed.

Lemma page_limit_nonzero (q : option qval) : page_limit q <> 0.
Proof.
  unfold page_limit. destruct q as [v | ]; [ | discriminate].
  destruct (parseInt (ToString v)) as [n | ]; [ | discriminate].
  destruct (Z.eqb_spec n 0); [discriminate | assumption].
Qed.

Lemma sort_permutation (t : table) : Permutation (RowSort.sort t) t.
Proof. symmetry. apply RowSort.Permuted_sort. Qed.

Lemma Forall_firstn_skipn {A : Type} (P : A -> Prop) (n m : nat) (l : list A) :
  Forall P l -> Forall P (firstn n (skipn m l)).
Proof.
  intros H. apply Forall_take, Forall_drop, H.
Qed.

(** X4.  When the query succeeds, GET /api/filter/:type looks at the rows
    whose label equals the type up to letter case, in ascending [id] order,
    and at the page that limit and offset cut out of them: every feature of
    the page carries such a label; the answer is 404 exactly when the offset
    is at least the number of such rows (also when rows of that type
    exist), and 200 with the page, which is not empty, otherwise. *)
Theorem filter_contract (w : world) (type : string) (ql qo : option qval) :
  let limit := page_limit ql in
  let offset := page_offset qo in
  let rows := matching type (current (db w)) in
  let found := page limit offset rows in
  next_ok w -> 0 <= limit -> 0 <= offset ->
  Forall (fun r => type_matches type r = true) found /\
  Sorted id_le found /\
  ((length rows <= Z.to_nat offset)%nat ->
   fst (get_filter type ql qo w)
   = inr (Response 404 (ErrorBody ("No features found with type '" ++ type ++ "'")))) /\
  ((Z.to_nat offset < length rows)%nat ->
   found <> [] /\
   fst (get_filter type ql qo w) = inr (Response 200 (FeatureCollection found))).
Proof.
  intros limit offset rows found Hok Hlimit Hoffset.
  assert (limit <> 0) as Hnz by apply page_limit_nonzero.
  assert (length found
          = Nat.min (Z.to_nat limit) (length rows - Z.to_nat offset)) as Hlen.
  { unfold found, page.
    rewrite length_firstn, length_skipn, (Permutation_length (sort_permutation rows)).
    reflexivity. }
  assert (fst (get_filter type ql qo w) =
          inr (if Nat.eqb (length found) 0
               then Response 404 (ErrorBody ("No features found with type '" ++ type ++ "'"))
               else Response 200 (FeatureCollection found))) as Hresp.
  { apply get_filter_ok; [exact Hok | ]. unfold select_page. fold limit offset.
    destruct (Z.ltb_spec offset 0); [lia | ].
    destruct (Z.ltb_spec limit 0); [lia | ]. reflexivity. }
  split.
  { apply Forall_firstn_skipn. rewrite Forall_forall. intros r Hr.
    apply list_elem_of_In in Hr.
    apply (Permutation_in _ (sort_permutation rows)) in Hr.
    unfold rows, matching in Hr. apply filter_In in Hr. tauto. }
  split; [apply Sorted_firstn, Sorted_skipn, sort_id_le | ].
  split; intros H; rewrite Hresp.
  - replace (length found) with 0%nat by lia. reflexivity.
  - destruct (length found) as [ | n] eqn:E; [lia | ].
    split; [ | reflexivity]. intros Hnil. rewrite Hnil in E. discriminate.
Qed.

(** X5.  A negative limit or offset is sent to the database as it is; the
    database rejects the query, and the land-use and filter routes answer
    500, whatever the table holds. *)
Theorem negative_page_rejected (w : world) (type : string) (ql qo : option qval) :
  page_limit ql < 0 \/ page_offset qo < 0 ->
  fst (get_land_use ql qo w)
  = inr (Response 500 (ErrorBody "Database error fetching land use")) /\
  fst (get_filter type ql qo w)
  = inr (Response 500 (ErrorBody "Database error filtering land use")).
Proof.
  intros Hneg.
  assert (forall ty, exists e,
             fst (pool_query (SELECT_geojson ty (page_offset qo) (page_limit ql)) w)
             = inl e) as Hfail.
  { intros ty.
    destruct (pool_query_cases (SELECT_geojson ty (page_offset qo) (page_limit ql)) w)
      as [(e & -> & _) | (r & d & _ & He & _)]; [eauto | ].
    exfalso. cbn [exec] in He. unfold select_page in He.
    destruct (Z.ltb_spec (page_offset qo) 0); [discriminate | ].
    destruct (Z.ltb_spec (page_limit ql) 0); [discriminate | lia]. }
  split.
  - destruct (Hfail None) as [e He]. eapply get_land_use_failed, He.
  - destruct (Hfail (Some type)) as [e He]. eapply get_filter_failed, He.
Qed.

(* ===================================================================== *)
(** ** Further properties: [parseInt] on the query parameters *)
(* ===================================================================== *)

Lemma parse_digits_acc (d : Decimal.uint) (acc : positive) :
  parse_digits (NilEmpty.string_of_uint d) (Z.pos acc) true
  = Some (Z.pos (Pos.of_uint_acc d acc)).
Proof.
  revert acc. induction d as [ | d IH | d IH | d IH | d IH | d IH | d IH
                              | d IH | d IH | d IH | d IH]; intros acc;
    [reflexivity | .. ];
    cbn [NilEmpty.string_of_uint parse_digits Pos.of_uint_acc];
    match goal with
    | |- context [digit_value ?c] =>
        let v := eval vm_compute in (digit_value c) in
        change (digit_value c) with v
    end;
    cbv iota beta; rewrite <- IH; f_equal; lia.
Qed.

Lemma parse_digits_uint (d : Decimal.uint) :
  parse_digits (NilEmpty.string_of_uint d) 0 true = Some (Z.of_N (Pos.of_uint d)).
Proof.
  induction d as [ | d IH | d IH | d IH | d IH | d IH | d IH
                   | d IH | d IH | d IH | d IH];
    [reflexivity | .. ];
    cbn [NilEmpty.string_of_uint parse_digits Pos.of_uint];
    match goal with
    | |- context [digit_value ?c] =>
        let v := eval vm_compute in (digit_value c) in
        change (digit_value c) with v
    end;
    cbv iota beta; cbn [Z.mul Z.add Z.of_N];
    first [exact IH | apply parse_digits_acc].
Qed.

(** The digits of a number, read from the first character on. *)
Lemma parse_digits_start (d : Decimal.uint) :
  parse_digits (NilZero.string_of_uint d) 0 false = Some (Z.of_N (Pos.of_uint d)).
Proof.
  destruct d; [reflexivity | .. ];
    rewrite <- parse_digits_uint; reflexivity.
Qed.

Lemma parseInt_uint (d : Decimal.uint) :
  parseInt (NilZero.string_of_uint d) = Some (Z.of_N (Pos.of_uint d)).
Proof.
  rewrite <- parse_digits_start. destruct d; reflexivity.
Qed.

(** [parseInt] reads back the decimal text of every integer. *)
Lemma parseInt_number_to_string (n : Z) : parseInt (number_to_string n) = Some n.
Proof.
  unfold number_to_string. destruct n as [ | p | p]; [reflexivity | | ].
  - cbn [Z.to_int NilZero.string_of_int Pos.to_int].
    rewrite parseInt_uint, Unsigned.of_to. reflexivity.
  - cbn [Z.to_int NilZero.string_of_int].
    unfold parseInt. cbn [trim_start]. 
    change (is_white_space "-") with false. cbv iota.
    change (Ascii.eqb "-" "-") with true. cbv iota.
    rewrite parse_digits_start, Unsigned.of_to. reflexivity.
Qed.

Lemma get_land_use_asks (ql qo : option qval) (w : world) :
  only_asked (SELECT_geojson None (page_offset qo) (page_limit ql)) w
             (snd (get_land_use ql qo w)).
Proof.
  pose proof (pool_query_select (SELECT_geojson None (page_offset qo) (page_limit ql)) w
                (exec_select_geojson None _ _)) as H.
  unfold get_land_use. rewrite or_default_limit, or_default_offset.
  unfold try_catch, bind. destruct (pool_query _ w) as [[e | r] w1]; cbn in *; [exact H | ].
  destruct (geojson_of r); cbn; exact H.
Qed.

Lemma get_filter_asks (type : string) (ql qo : option qval) (w : world) :
  only_asked (SELECT_geojson (Some type) (page_offset qo) (page_limit ql)) w
             (snd (get_filter type ql qo w)).
Proof.
  pose proof (pool_query_select (SELECT_geojson (Some type) (page_offset qo) (page_limit ql)) w
                (exec_select_geojson (Some type) _ _)) as H.
  unfold get_filter. rewrite or_default_limit, or_default_offset.
  unfold try_catch, bind. destruct (pool_query _ w) as [[e | r] w1]; cbn in *; [exact H | ].
  destruct (geojson_of r) as [e | rows]; cbn; [exact H | ].
  destruct (Nat.eqb (length rows) 0); cbn; exact H.
Qed.

(** X6.  Within the integers that a JavaScript number holds exactly, from
    -2^53 to 2^53, a limit and an offset written in decimal reach the
    database as they were written: GET /api/land_use and
    GET /api/filter/:type send exactly one [SELECT], with that offset and
    that limit, where a limit of zero stands for 1000, and change nothing
    else. *)
Theorem page_parameters_round_trip (w : world) (type : string) (limit offset : Z) :
  Z.abs limit <= 2 ^ 53 ->
  Z.abs offset <= 2 ^ 53 ->
  let ql := Some (QStr (number_to_string limit)) in
  let qo := Some (QStr (number_to_string offset)) in
  let sent := if limit =? 0 then 1000 else limit in
  only_asked (SELECT_geojson None offset sent) w (snd (get_land_use ql qo w)) /\
  only_asked (SELECT_geojson (Some type) offset sent) w (snd (get_filter type ql qo w)).
Proof.
  intros _ _ ql qo sent.
  assert (page_offset qo = offset) as Ho.
  { unfold page_offset, qo. cbn [ToString]. now rewrite parseInt_number_to_string. }
  assert (page_limit ql = sent) as Hl.
  { unfold page_limit, ql. cbn [ToString]. now rewrite parseInt_number_to_string. }
  rewrite <- Ho, <- Hl. split; [apply get_land_use_asks | apply get_filter_asks].
Qed.

Lemma parse_digits_comma (s t : string) (acc : Z) (seen : bool) :
  parse_digits (s ++ String "," t) acc seen = parse_digits s acc seen.
Proof.
  revert acc seen. induction s as [ | c s IH]; intros acc seen.
  - reflexivity.
  - change (String c s ++ String "," t) with (String c (s ++ String "," t)).
    cbn [parse_digits]. destruct (digit_value c); [apply IH | reflexivity].
Qed.

(** What follows a comma never reaches [parseInt]. *)
Lemma parseInt_comma (s t : string) : parseInt (s ++ String "," t) = parseInt s.
Proof.
  unfold parseInt. induction s as [ | c s IH].
  - reflexivity.
  - change (String c s ++ String "," t) with (String c (s ++ String "," t)).
    cbn [trim_start]. destruct (is_white_space c); [exact IH | ].
    destruct (Ascii.eqb c "-"); [now rewrite parse_digits_comma | ].
    destruct (Ascii.eqb c "+"); [now rewrite parse_digits_comma | ].
    apply (parse_digits_comma (String c s) t).
Qed.

Lemma ToString_first (v x : qval) (rest : list qval) :
  exists t, ToString (QArr (v :: x :: rest)) = ToString v ++ String "," t.
Proof. eexists. cbn [ToString]. reflexivity. Qed.

(** X7.  A parameter given several times arrives as an array, and only its
    first value counts: the land-use and filter routes treat the request
    exactly as if the limit (or the offset) had been given once, with that
    first value. *)
Theorem repeated_parameter_first_wins (v : qval) (rest : list qval) (other : option qval) :
  page_limit (Some (QArr (v :: rest))) = page_limit (Some v) /\
  page_offset (Some (QArr (v :: rest))) = page_offset (Some v) /\
  (forall w, get_land_use (Some (QArr (v :: rest))) other w
             = get_land_use (Some v) other w) /\
  (forall w, get_land_use other (Some (QArr (v :: rest))) w
             = get_land_use other (Some v) w) /\
  (forall type w, get_filter type (Some (QArr (v :: rest))) other w
                  = get_filter type (Some v) other w) /\
  (forall type w, get_filter type other (Some (QArr (v :: rest))) w
                  = get_filter type other (Some v) w).
Proof.
  assert (parseInt (ToString (QArr (v :: rest))) = parseInt (ToString v)) as H.
  { destruct rest as [ | x rest]; [reflexivity | ].
    destruct (ToString_first v x rest) as [t ->]. apply parseInt_comma. }
  unfold page_limit, page_offset, get_land_use, get_filter, ToString_query.
  rewrite H. repeat split.
Qed.

(* ===================================================================== *)
(** ** Further properties: what an upload sends *)
(* ===================================================================== *)

Lemma emits_ret {A : Type} (P : statement -> Prop) (a : A) : emits P (ret a).
Proof. intros w. exists []. split; [now rewrite app_nil_r | constructor]. Qed.

Lemma emits_throw {A : Type} (P : statement -> Prop) (e : exn) :
  emits P (@throw A e).
Proof. intros w. exists []. split; [now rewrite app_nil_r | constructor]. Qed.

Lemma emits_quiet {A : Type} (P : statement -> Prop) (m : M A) :
  (forall w, log (snd (m w)) = log w) -> emits P m.
Proof.
  intros H w. exists []. split; [now rewrite app_nil_r, H | constructor].
Qed.

Lemma emits_bind {A B : Type} (P : statement -> Prop) (m : M A) (k : A -> M B) :
  emits P m ->
  (forall a w, fst (m w) = inr a -> emits P (k a)) ->
  emits P (bind m k).
Proof.
  intros Hm Hk w. unfold bind. destruct (Hm w) as (evs & Hlog & Hevs).
  destruct (m w) as [[e | a] w1] eqn:E; cbn [snd] in *.
  - exists evs. split; assumption.
  - destruct (Hk a w (f_equal fst E) w1) as (evs' & Hlog' & Hevs').
    exists (evs ++ evs')%list.
    split; [now rewrite Hlog', Hlog, app_assoc | now apply Forall_app].
Qed.

Lemma emits_pool_query (P : statement -> Prop) (s : statement) :
  P s -> emits P (pool_query s).
Proof.
  intros HP w.
  destruct (pool_query_cases s w) as [(e & -> & _) | (r & d & _ & _ & ->)];
    eexists [_]; (split; [reflexivity | repeat constructor; exact HP]).
Qed.

Lemma emits_try_catch {A : Type} (P : statement -> Prop) (m : M A) (h : exn -> M A) :
  emits P m -> (forall e, emits P (h e)) -> emits P (try_catch m h).
Proof.
  intros Hm Hh w. unfold try_catch. destruct (Hm w) as (evs & Hlog & Hevs).
  destruct (m w) as [[e | a] w1]; cbn [snd] in *.
  - destruct (Hh e w1) as (evs' & Hlog' & Hevs').
    exists (evs ++ evs')%list.
    split; [now rewrite Hlog', Hlog, app_assoc | now apply Forall_app].
  - exists evs. split; assumption.
Qed.

Lemma emits_try_finally {A : Type} (P : statement -> Prop) (m : M A) (c : M unit) :
  emits P m -> emits P c -> emits P (try_finally m c).
Proof.
  intros Hm Hc w. unfold try_finally. destruct (Hm w) as (evs & Hlog & Hevs).
  destruct (m w) as [r w1]; cbn [snd] in *.
  destruct (Hc w1) as (evs' & Hlog' & Hevs').
  exists (evs ++ evs')%list.
  split; [ | now apply Forall_app].
  destruct (c w1) as [[e | u] w2]; cbn [snd] in *; now rewrite Hlog', Hlog, app_assoc.
Qed.

Lemma emits_swallow {A : Type} (P : statement -> Prop) (m : M A) :
  emits P m -> emits P (swallow m).
Proof. intros Hm w. exact (Hm w). Qed.

Lemma slice_length_le {A : Type} (a : list A) (from to : nat) :
  (length (slice a from to) <= to - from)%nat.
Proof. unfold slice. rewrite length_firstn. lia. Qed.

Lemma kept_length_le (features : list json) :
  (length (kept features) <= length features)%nat.
Proof. rewrite kept_length. apply filter_length_le. Qed.

Lemma emits_insert_batches (features : list json) :
  forall fuel i c, emits upload_statement (insert_batches fuel features i c).
Proof.
  induction fuel as [ | fuel IH]; intros i c; cbn [insert_batches].
  - apply emits_ret.
  - destruct (i <? length features)%nat; [ | apply emits_ret].
    apply emits_bind; [apply emits_quiet; reflexivity | ].
    intros params w Hparams. cbn [lift fst] in Hparams.
    apply batch_forEach_inr in Hparams as [_ ->]. cbn [app].
    apply emits_bind; [ | intros; apply IH].
    destruct (0 <? length (kept _))%nat eqn:Hpos; [ | apply emits_ret].
    apply emits_bind; [ | intros; apply emits_ret].
    apply emits_pool_query. cbn [upload_statement].
    apply Nat.ltb_lt in Hpos. split; [lia | ].
    etransitivity; [apply kept_length_le | ].
    etransitivity; [apply slice_length_le | lia].
Qed.

(** X8.  Whatever the request and however it ends, an upload adds to the
    query log only [BEGIN], [DELETE FROM landuse], [COMMIT], [ROLLBACK] and
    inserts of between one and 500 rows: it never reads the table and never
    sends an empty or a larger insert. *)
Theorem upload_only_sends_its_statements (file : option string) (w : world) :
  exists evs,
    log (snd (post_upload file w)) = (log w ++ evs)%list /\
    Forall (fun ev =>
              match ev_statement ev with
              | BEGIN | DELETE_FROM_landuse | COMMIT | ROLLBACK => True
              | INSERT_INTO_landuse params => (1 <= length params <= 500)%nat
              | SELECT_geojson _ _ _ | SELECT_area _ => False
              end) evs.
Proof.
  revert w. change (emits upload_statement (post_upload file)).
  destruct file as [filename | ]; cbn [post_upload]; [ | apply emits_ret].
  apply emits_try_finally.
  - apply emits_try_catch.
    + unfold upload_try.
      apply emits_bind.
      { apply emits_quiet. intros w. unfold read_json.
        destruct (files w !! _); reflexivity. }
      intros data _ _.
      apply emits_bind; [apply emits_quiet; reflexivity | ]. intros type _ _.
      apply emits_bind.
      { destruct (negb _); [apply emits_ret | ].
        apply emits_bind; [apply emits_quiet; reflexivity | ].
        intros; apply emits_ret. }
      intros invalid _ _. destruct invalid; [apply emits_throw | ].
      apply emits_bind; [apply emits_pool_query; exact I | ]. intros _ _ _.
      apply emits_bind; [apply emits_pool_query; exact I | ]. intros _ _ _.
      apply emits_bind; [apply emits_insert_batches | ]. intros n _ _.
      apply emits_bind; [apply emits_pool_query; exact I | ]. intros _ _ _.
      apply emits_ret.
    + intros e. unfold upload_catch.
      apply emits_bind; [apply emits_swallow, emits_pool_query; exact I | ].
      intros; apply emits_ret.
  - unfold upload_finally.
    apply emits_bind; [apply emits_quiet; reflexivity | ].
    intros found _ _. destruct found; [apply emits_quiet; reflexivity | apply emits_ret].
Qed.

(* ===================================================================== *)
(** ** Further properties: uploads that are refused *)
(* ===================================================================== *)

Lemma well_formed_uploaded (data : json) :
  well_formed data = false -> uploaded_features (Some (inr data)) = None.
Proof.
  unfold well_formed, uploaded_features.
  destruct data as [ | | | | | members]; try reflexivity.
  destruct (strict_equal_string _ _); [ | reflexivity]. cbn [andb].
  destruct (lookup_member "features" members) as [[ | | | | l | ] | ];
    try reflexivity. discriminate.
Qed.

(** What the [try] block throws on a file that does not pass the
    validation. *)
Lemma upload_try_rejects (path : string) (w : world) :
  (forall data, files w !! path = Some (inr data) -> well_formed data = false) ->
  upload_try path w =
  (inl match files w !! path with
       | None => Error ("ENOENT: no such file or directory, open '" ++ path ++ "'")
       | Some (inl e) => e
       | Some (inr JNull) => Error "Cannot read properties of null (reading 'type')"
       | Some (inr _) => Error "Invalid GeoJSON format"
       end, w).
Proof.
  intros Hwf. unfold upload_try, read_json. unfold bind at 1.
  destruct (files w !! path) as [[e | data] | ]; try reflexivity.
  specialize (Hwf data eq_refl). unfold bind at 1, lift at 1.
  destruct data as [ | | | | | members]; try reflexivity.
  cbn [get]. unfold well_formed in Hwf.
  destruct (strict_equal_string (lookup_member "type" members) "FeatureCollection");
    [ | reflexivity].
  cbn [andb] in Hwf. cbn [negb]. unfold bind at 1. unfold bind at 1, lift at 1, ret at 1.
  rewrite Hwf. reflexivity.
Qed.

(** X9.  An uploaded file that is missing, does not parse, or whose value is
    not a FeatureCollection with an array of features never reaches the
    transaction: the only statement sent is the [ROLLBACK] of the [catch]
    block, the table is untouched, and the answer is 500 (not 400) with the
    text of the error: "Invalid GeoJSON format" for a JSON value other than
    [null] that fails the validation. *)
Theorem upload_refuses_invalid_file (w : world) (filename : string) :
  let path := path_resolve uploadsDir filename in
  let run := post_upload (Some filename) w in
  (forall data, files w !! path = Some (inr data) -> well_formed data = false) ->
  (exists ok, log (snd run) = (log w ++ [Event ROLLBACK ok (landuse (db w))])%list) /\
  landuse (db (snd run)) = landuse (db w) /\
  fst run =
  inr (Response 500
         (ErrorBody
            match files w !! path with
            | None => "ENOENT: no such file or directory, open '" ++ path ++ "'"
            | Some (inl e) =>
                if String.eqb (message e) "" then "Failed to upload and save GeoJSON"
                else message e
            | Some (inr JNull) => "Cannot read properties of null (reading 'type')"
            | Some (inr _) => "Invalid GeoJSON format"
            end)).
Proof.
  intros path run Hwf. subst run.
  pose proof (upload_try_rejects path w Hwf) as Htry.
  destruct (post_upload_error filename w w _ Htry) as (ok & w' & Hrun & Hland & Hlog).
  rewrite Hrun. cbn [fst snd]. split; [eauto | ]. split; [exact Hland | ].
  do 3 f_equal. fold path.
  destruct (files w !! path) as [[e | data] | ]; try reflexivity.
  destruct data; reflexivity.
Qed.

Lemma null_or_not (l : list json) :
  In JNull l \/ Forall (fun f => f <> JNull) l.
Proof.
  induction l as [ | f l [IH | IH]]; [right; constructor | left; now right | ].
  destruct f; try (right; constructor; [discriminate | assumption]).
  left. now left.
Qed.

Lemma batch_forEach_null (batch : list json) (params : list (string * json)) :
  In JNull batch ->
  batch_forEach batch params
  = inl (Error "Cannot read properties of null (reading 'geometry')").
Proof.
  revert params. induction batch as [ | f rest IH]; intros params Hin; [contradiction | ].
  cbn [batch_forEach]. destruct f; try reflexivity;
    (rewrite feature_params_spec by discriminate;
     destruct Hin as [Hin | Hin]; [discriminate | ];
     destruct (row_of _); apply IH, Hin).
Qed.

(** On a database that does not fail, the loop succeeds unless a feature is
    [null], and then it throws the [TypeError] of [f.geometry]. *)
Lemma run_batches_healthy (bs : list (list json)) :
  forall c w, no_fault w ->
    exists w',
      no_fault w' /\
      ((Forall (fun f => f <> JNull) (concat bs) /\
        run_batches bs c w = (inr (c + list_sum (map batch_report bs))%nat, w'))
       \/
       (In JNull (concat bs) /\
        run_batches bs c w
        = (inl (Error "Cannot read properties of null (reading 'geometry')"), w'))).
Proof.
  induction bs as [ | b bs IH]; intros c w Hnf.
  - exists w. split; [exact Hnf | ]. left. split; [constructor | ].
    cbn. now rewrite Nat.add_0_r.
  - cbn [concat map].
    change (list_sum (batch_report b :: map batch_report bs))
      with (batch_report b + list_sum (map batch_report bs))%nat.
    destruct (null_or_not b) as [Hnull | Hnn].
    { exists w. split; [exact Hnf | ].
      right. split; [apply in_or_app; now left | ].
      cbn [run_batches]. unfold bind at 1, lift at 1.
      now rewrite (batch_forEach_null b [] Hnull). }
    assert (exists w1,
               run_batches (b :: bs) c w = run_batches bs (c + batch_report b) w1
               /\ no_fault w1) as (w1 & Hstep & Hnf1).
    { cbn [run_batches]. unfold bind at 1, lift at 1.
      rewrite (batch_forEach_spec b [] Hnn). cbn [app]. unfold batch_report.
      destruct (kept b) as [ | p ps] eqn:Hk.
      - exists w. cbn [length Nat.ltb Nat.leb]. unfold bind at 1, ret at 1.
        rewrite Nat.add_0_r. split; [reflexivity | exact Hnf].
      - replace (0 <? length (p :: ps))%nat with true by reflexivity.
        unfold bind at 1. unfold bind at 1.
        rewrite (pool_query_ok (INSERT_INTO_landuse (p :: ps)) w NoRows _
                   (no_fault_next_ok w Hnf) eq_refl).
        unfold ret at 1. eexists. split; [reflexivity | ].
        destruct w. eapply no_fault_tl. exact Hnf. }
    rewrite Hstep.
    destruct (IH (c + batch_report b)%nat w1 Hnf1)
      as (w' & Hnf' & [[Hall Hrun] | [Hin Hrun]]);
      exists w'; (split; [exact Hnf' | ]).
    + left. split; [now apply Forall_app | ]. rewrite Hrun. do 2 f_equal. lia.
    + right. split; [apply in_or_app; now right | exact Hrun].
Qed.

Lemma upload_txn_healthy (features : list json) (w : world) :
  no_fault w ->
  (Forall (fun f => f <> JNull) features /\
   exists resp w', upload_txn features w = (inr resp, w'))
  \/
  (In JNull features /\
   exists w', upload_txn features w
              = (inl (Error "Cannot read properties of null (reading 'geometry')"), w')).
Proof.
  intros Hnf.
  assert (exists w2,
             no_fault w2 /\
             upload_txn features w =
             (let! insertCount := run_batches (batches features) 0 in
              do! pool_query COMMIT in
              res_json (MessageBody (success_message insertCount))) w2)
    as (w2 & Hnf2 & ->).
  { unfold upload_txn. unfold bind at 1.
    rewrite (pool_query_ok BEGIN w NoRows _ (no_fault_next_ok w Hnf) eq_refl).
    destruct w as [d f l fs].
    assert (forall d' l', no_fault (World d' (tl f) l' fs)) as Hnf1
        by (intros; eapply no_fault_tl; exact Hnf).
    cbn [db faults log files]. unfold bind at 1.
    erewrite pool_query_ok; [ | apply no_fault_next_ok, Hnf1 | reflexivity].
    cbn [db faults log files]. eexists. split; [ | reflexivity].
    eapply no_fault_tl. exact (Hnf1 d l). }
  destruct (run_batches_healthy (batches features) 0 w2 Hnf2)
    as (w3 & Hnf3 & [[Hall Hrun] | [Hin Hrun]]); rewrite concat_batches in *.
  - left. split; [exact Hall | ]. unfold bind at 1. rewrite Hrun. unfold bind at 1.
    rewrite (pool_query_ok COMMIT w3 NoRows _ (no_fault_next_ok w3 Hnf3) eq_refl).
    unfold res_json, ret. do 2 eexists. reflexivity.
  - right. split; [exact Hin | ]. unfold bind at 1. rewrite Hrun.
    eexists. reflexivity.
Qed.

(** X10.  On a database that does not fail, an upload whose file passes the
    validation and holds no [null] feature always succeeds: it answers 200
    and the table is the full replacement, with no transaction left open. *)
Theorem healthy_upload_succeeds (w : world) (filename : string) (features : list json) :
  let path := path_resolve uploadsDir filename in
  let run := post_upload (Some filename) w in
  uploaded_features (files w !! path) = Some features ->
  Forall (fun f => f <> JNull) features ->
  no_fault w ->
  fst run = inr (Response 200 (MessageBody (success_message (reported_count features)))) /\
  landuse (db (snd run)) = replacement (db w) features /\
  txn (db (snd run)) = None /\
  length (landuse (db (snd run))) = length (List.filter insertable features).
Proof.
  intros path run Hup Hnn Hnf. subst run.
  destruct (post_upload_spec filename w) as (r & w' & evs & Hrun & _ & _ & Hcases).
  fold path in Hcases. rewrite Hrun. cbn [fst snd].
  destruct Hcases as [(features' & inner & Hup' & _ & -> & Hdb & _)
                     | (e & w1 & ok & inner & Htry & _)].
  - rewrite Hup in Hup'. injection Hup' as <-. rewrite Hdb. cbn [landuse txn].
    repeat split. unfold replacement.
    rewrite <- kept_length. clear. generalize (landuse_id_seq (db w)).
    induction (kept features) as [ | [g t] ps IH]; intros next; cbn; [reflexivity | ].
    now rewrite IH.
  - exfalso. rewrite (upload_try_valid path w features Hup) in Htry.
    destruct (upload_txn_healthy features w Hnf)
      as [[_ (resp & w2 & H)] | [Hin _]].
    + rewrite H in Htry. discriminate.
    + rewrite Forall_forall in Hnn. apply (Hnn JNull); [ | reflexivity].
      apply list_elem_of_In, Hin.
Qed.

(** X11.  An upload whose features array holds a [null] never replaces the
    table: it answers 500 and the table is what it was, even when batches
    before the [null] were already inserted; on a database that does not
    fail the error text is the [TypeError] of reading [geometry] of
    [null]. *)
Theorem null_feature_aborts_upload (w : world) (filename : string) (features : list json) :
  let path := path_resolve uploadsDir filename in
  let run := post_upload (Some filename) w in
  uploaded_features (files w !! path) = Some features ->
  In JNull features ->
  (exists error, fst run = inr (Response 500 (ErrorBody error))) /\
  landuse (db (snd run)) = landuse (db w) /\
  (no_fault w ->
   fst run = inr (Response 500
                    (ErrorBody "Cannot read properties of null (reading 'geometry')"))).
Proof.
  intros path run Hup Hin. subst run.
  destruct (post_upload_spec filename w) as (r & w' & evs & Hrun & _ & _ & Hcases).
  fold path in Hcases. rewrite Hrun. cbn [fst snd].
  destruct Hcases as [(features' & inner & Hup' & Hnn & _)
                     | (e & w1 & ok & inner & Htry & -> & Hland & _)].
  - exfalso. rewrite Hup in Hup'. injection Hup' as <-.
    rewrite Forall_forall in Hnn. apply (Hnn JNull); [ | reflexivity].
    apply list_elem_of_In, Hin.
  - split; [eauto | ]. split; [exact Hland | ]. intros Hnf.
    rewrite (upload_try_valid path w features Hup) in Htry.
    destruct (upload_txn_healthy features w Hnf)
      as [[Hnn _] | [_ (w2 & H)]].
    + exfalso. rewrite Forall_forall in Hnn. apply (Hnn JNull); [ | reflexivity].
      apply list_elem_of_In, Hin.
    + rewrite H in Htry. injection Htry as <- _. reflexivity.
Qed.

(* ===================================================================== *)
(** ** Further properties: the reported count and the new table *)
(* ===================================================================== *)

Lemma batch_report_bounds (b : list json) :
  (length (kept b) <= batch_report b <= length b)%nat.
Proof.
  unfold batch_report. pose proof (kept_length_le b) as H.
  destruct (kept b); cbn [length] in *; lia.
Qed.

Lemma report_bounds (bs : list (list json)) :
  (length (kept (concat bs)) <= list_sum (map batch_report bs) <= length (concat bs))%nat.
Proof.
  induction bs as [ | b bs IH]; [cbn; lia | ].
  cbn [concat map]. rewrite kept_app, !length_app.
  change (list_sum (batch_report b :: map batch_report bs))
    with (batch_report b + list_sum (map batch_report bs))%nat.
  pose proof (batch_report_bounds b). lia.
Qed.

Lemma report_zero (bs : list (list json)) :
  list_sum (map batch_report bs) = 0%nat <-> kept (concat bs) = [].
Proof.
  induction bs as [ | b bs IH]; [cbn; tauto | ].
  cbn [concat map]. rewrite kept_app.
  change (list_sum (batch_report b :: map batch_report bs))
    with (batch_report b + list_sum (map batch_report bs))%nat.
  split.
  - intros H. apply Nat.eq_add_0 in H as [Hb Hbs].
    apply IH in Hbs. rewrite Hbs, app_nil_r.
    pose proof (batch_report_bounds b) as Hbound.
    destruct (kept b); [reflexivity | cbn [length] in Hbound; lia].
  - intros H. apply app_eq_nil in H as [Hb Hbs].
    apply IH in Hbs. rewrite Hbs. unfold batch_report. now rewrite Hb.
Qed.

Lemma report_count_bounds (features : list json) :
  (length (kept features) <= reported_count features <= length features)%nat /\
  (reported_count features = 0%nat <-> kept features = []) /\
  (Forall (fun f => insertable f = true) features ->
   reported_count features = length (kept features)).
Proof.
  unfold reported_count.
  pose proof (report_bounds (batches features)) as Hb.
  pose proof (report_zero (batches features)) as Hz.
  rewrite concat_batches in Hb, Hz. split; [exact Hb | ]. split; [exact Hz | ].
  intros Hall. assert (length (kept features) = length features) as Hlen.
  { rewrite kept_length. clear Hb Hz.
    induction Hall as [ | f l Hf _ IH]; [reflexivity | ].
    cbn [List.filter]. rewrite Hf. cbn [length]. now rewrite IH. }
  lia.
Qed.

Lemma new_rows_columns (ps : list (string * json)) (next : Z) :
  map columns (new_rows ps next)
  = map (fun p => (Some (fst p), Some (pg_text (snd p)))) ps.
Proof.
  revert next. induction ps as [ | [g t] ps IH]; intros next; [reflexivity | ].
  cbn [new_rows map]. now rewrite IH.
Qed.

Lemma new_rows_ids (ps : list (string * json)) (next : Z) :
  map row_id (new_rows ps next)
  = map (fun k => next + Z.of_nat k) (seq 0 (length ps)).
Proof.
  revert next. induction ps as [ | [g t] ps IH]; intros next; [reflexivity | ].
  cbn [new_rows map length seq row_id]. rewrite IH, <- seq_shift, map_map.
  f_equal; [lia | ]. apply map_ext. intros k. lia.
Qed.

Lemma new_rows_length (ps : list (string * json)) (next : Z) :
  length (new_rows ps next) = length ps.
Proof.
  pose proof (f_equal (@length _) (new_rows_ids ps next)) as H.
  now rewrite !length_map, length_seq in H.
Qed.

(** X12.  After a successful upload (status 200), the count in the success
    message is never smaller than the number of rows the table now holds
    and never larger than the number of features in the file; it is 0
    exactly when the table is left empty, and it is the number of rows of
    the table when every feature of the file is kept. *)
Theorem reported_count_bounds (w : world) (filename : string) (resp : response) :
  let path := path_resolve uploadsDir filename in
  let run := post_upload (Some filename) w in
  fst run = inr resp ->
  status resp = 200 ->
  exists (features : list json) (insertCount : nat),
    uploaded_features (files w !! path) = Some features /\
    body resp = MessageBody (success_message insertCount) /\
    (length (landuse (db (snd run))) <= insertCount <= length features)%nat /\
    (insertCount = 0%nat <-> landuse (db (snd run)) = []) /\
    (Forall (fun f => insertable f = true) features ->
     insertCount = length (landuse (db (snd run))) /\
     insertCount = length features).
Proof.
  intros path run Hresp Hstatus. subst run.
  destruct (post_upload_spec filename w) as (r & w' & evs & Hrun & _ & _ & Hcases).
  fold path in Hcases. rewrite Hrun in Hresp |- *. cbn [fst snd] in *.
  injection Hresp as ->.
  destruct Hcases as [(features & inner & Hup & _ & -> & Hdb & _)
                     | (e & w1 & ok & inner & _ & -> & _)]; [ | discriminate].
  exists features, (reported_count features). split; [exact Hup | ].
  split; [reflexivity | ]. rewrite Hdb. cbn [landuse]. unfold replacement.
  destruct (report_count_bounds features) as (Hb & Hz & Hall).
  rewrite new_rows_length. split; [exact Hb | ]. split.
  - rewrite Hz. split; [now intros -> | ].
    intros H. apply (f_equal (@length _)) in H. rewrite new_rows_length in H.
    cbn [length] in H. now apply length_zero_iff_nil.
  - intros Hf. specialize (Hall Hf). split; [exact Hall | ].
    rewrite Hall, kept_length. clear -Hf.
    induction Hf as [ | f l Hf _ IH]; [reflexivity | ].
    cbn [List.filter]. rewrite Hf. cbn [length]. now rewrite IH.
Qed.

(** X13.  After a successful upload the table holds one row per kept
    feature, in input order, with the serialised geometry and the label of
    that feature and with consecutive identifiers that continue the
    sequence: nothing of the old table is left, and what the columns hold
    does not depend on what the table held before. *)
Theorem upload_replaces_table (w : world) (filename : string) (resp : response) :
  let path := path_resolve uploadsDir filename in
  let run := post_upload (Some filename) w in
  fst run = inr resp ->
  status resp = 200 ->
  exists features,
    uploaded_features (files w !! path) = Some features /\
    map columns (landuse (db (snd run)))
    = map (fun f => match geometry_of f, type_of f with
                    | Some g, Some t => (Some (JSON_stringify g), Some (pg_text t))
                    | _, _ => (None, None)
                    end) (List.filter insertable features) /\
    map row_id (landuse (db (snd run)))
    = map (fun k => landuse_id_seq (db w) + Z.of_nat k)
          (seq 0 (length (List.filter insertable features))) /\
    landuse_id_seq (db (snd run))
    = landuse_id_seq (db w) + Z.of_nat (length (List.filter insertable features)).
Proof.
  intros path run Hresp Hstatus. subst run.
  destruct (post_upload_spec filename w) as (r & w' & evs & Hrun & _ & _ & Hcases).
  fold path in Hcases. rewrite Hrun in Hresp |- *. cbn [fst snd] in *.
  injection Hresp as ->.
  destruct Hcases as [(features & inner & Hup & _ & -> & Hdb & _)
                     | (e & w1 & ok & inner & _ & -> & _)]; [ | discriminate].
  exists features. split; [exact Hup | ]. rewrite Hdb. cbn [landuse landuse_id_seq].
  unfold replacement. rewrite new_rows_columns, new_rows_ids, kept_length.
  split; [ | split; reflexivity].
  clear. induction features as [ | f l IH]; [reflexivity | ].
  cbn [kept flat_map List.filter]. fold (kept l). rewrite map_app, IH.
  unfold row_of. destruct (insertable f) eqn:Hi; cbn [map].
  - unfold insertable in Hi. apply andb_true_iff in Hi as [Hg Ht].
    destruct (geometry_of f) as [g | ]; [ | discriminate].
    destruct (type_of f) as [t | ]; [ | discriminate]. reflexivity.
  - destruct (geometry_of f), (type_of f); reflexivity.
Qed.

(* ===================================================================== *)
(** ** Further properties: reading after an upload, and paging *)
(* ===================================================================== *)

Lemma new_rows_lower (ps : list (string * json)) (next : Z) :
  Forall (fun r => next <= row_id r) (new_rows ps next).
Proof.
  revert next. induction ps as [ | [g t] ps IH]; intros next; cbn [new_rows].
  - constructor.
  - constructor; [cbn; lia | ].
    eapply List.Forall_impl; [ | apply IH]. cbn. intros r Hr. lia.
Qed.

Lemma new_rows_ascending (ps : list (string * json)) (next : Z) :
  StronglySorted id_lt (new_rows ps next).
Proof.
  revert next. induction ps as [ | [g t] ps IH]; intros next; cbn [new_rows].
  - constructor.
  - constructor; [apply IH | ].
    eapply List.Forall_impl; [ | apply new_rows_lower]. unfold id_lt. cbn.
    intros r Hr. lia.
Qed.

(** A table in strictly ascending [id] order is its own [ORDER BY id]. *)
Lemma sorted_unique (l : table) :
  forall l', Permutation l l' -> StronglySorted id_lt l -> Sorted id_le l' -> l' = l.
Proof.
  induction l as [ | a l1 IH]; intros l' Hperm Hl Hl'.
  - now apply Permutation_nil in Hperm.
  - destruct l' as [ | b l2].
    { apply Permutation_sym, Permutation_nil in Hperm. discriminate. }
    apply StronglySorted_inv in Hl as [Hl1 Ha].
    assert (StronglySorted id_le (b :: l2)) as Hs.
    { apply Sorted_StronglySorted; [ | exact Hl']. intros x y z. unfold id_le. lia. }
    apply StronglySorted_inv in Hs as [_ Hb].
    assert (b = a) as ->.
    { assert (In a (b :: l2)) as Hina
          by (eapply Permutation_in; [exact Hperm | now left]).
      assert (In b (a :: l1)) as Hinb
          by (eapply Permutation_in; [symmetry; exact Hperm | now left]).
      destruct Hinb as [Hab | Hinb]; [now symmetry | ].
      destruct Hina as [Hba | Hina]; [exact Hba | ].
      rewrite Forall_forall in Ha, Hb.
      apply list_elem_of_In, Ha in Hinb. apply list_elem_of_In, Hb in Hina.
      unfold id_lt, id_le in *. lia. }
    f_equal. apply IH.
    + eapply Permutation_cons_inv. exact Hperm.
    + exact Hl1.
    + now inversion Hl'.
Qed.

Lemma sort_new_rows (ps : list (string * json)) (next : Z) :
  RowSort.sort (new_rows ps next) = new_rows ps next.
Proof.
  apply sorted_unique.
  - apply RowSort.Permuted_sort.
  - apply new_rows_ascending.
  - apply sort_id_le.
Qed.

(** X14.  Right after a successful upload, GET /api/land_use returns the
    inserted rows in the order of the uploaded features: the page that limit
    and offset cut out of the new table as it is. *)
Theorem upload_then_land_use (w : world) (filename : string) (resp : response)
        (ql qo : option qval) :
  let path := path_resolve uploadsDir filename in
  let run := post_upload (Some filename) w in
  fst run = inr resp ->
  status resp = 200 ->
  next_ok (snd run) -> 0 <= page_limit ql -> 0 <= page_offset qo ->
  exists features,
    uploaded_features (files w !! path) = Some features /\
    landuse (db (snd run)) = new_rows (kept features) (landuse_id_seq (db w)) /\
    fst (get_land_use ql qo (snd run))
    = inr (Response 200
             (FeatureCollection
                (firstn (Z.to_nat (page_limit ql))
                        (skipn (Z.to_nat (page_offset qo)) (landuse (db (snd run))))))).
Proof.
  intros path run Hresp Hstatus. subst run.
  destruct (post_upload_spec filename w) as (r & w' & evs & Hrun & _ & _ & Hcases).
  fold path in Hcases. rewrite Hrun in Hresp |- *. cbn [fst snd] in *.
  injection Hresp as ->. intros Hok Hlimit Hoffset.
  destruct Hcases as [(features & inner & Hup & _ & -> & Hdb & _)
                     | (e & w1 & ok & inner & _ & -> & _)]; [ | discriminate].
  exists features. split; [exact Hup | ]. rewrite Hdb. cbn [landuse].
  split; [reflexivity | ].
  apply get_land_use_ok; [exact Hok | ]. unfold select_page.
  destruct (Z.ltb_spec (page_offset qo) 0); [lia | ].
  destruct (Z.ltb_spec (page_limit ql) 0); [lia | ].
  rewrite Hdb. unfold current, replacement. cbn [txn landuse].
  now rewrite sort_new_rows.
Qed.

Lemma matching_new_rows (type : string) (features : list json) (next : Z) :
  length (matching type (new_rows (kept features) next))
  = length (List.filter (counts_for type) features).
Proof.
  revert next. induction features as [ | f l IH]; intros next; [reflexivity | ].
  cbn [kept flat_map List.filter]. fold (kept l). rewrite new_rows_app.
  unfold matching in *. rewrite List.filter_app, length_app, IH.
  unfold counts_for at 2, row_of. destruct (insertable f) eqn:Hi.
  - unfold insertable in Hi. apply andb_true_iff in Hi as [Hg Ht].
    destruct (geometry_of f) as [g | ]; [ | discriminate].
    destruct (type_of f) as [t | ]; [ | discriminate].
    cbn [new_rows List.filter type_matches row_type andb].
    unfold type_matches. cbn [row_type].
    destruct (String.eqb (LOWER (pg_text t)) (LOWER type)); reflexivity.
  - cbn [andb]. destruct (geometry_of f), (type_of f); reflexivity.
Qed.

(** X15.  Right after a successful upload, GET /api/area/:type counts exactly
    the kept features whose stored label equals the type up to letter case:
    it answers 404 when there is none, and 200 with that number as
    [featureCount] otherwise. *)
Theorem upload_then_area (w : world) (filename : string) (resp : response)
        (type : string) :
  let path := path_resolve uploadsDir filename in
  let run := post_upload (Some filename) w in
  fst run = inr resp ->
  status resp = 200 ->
  next_ok (snd run) ->
  exists features,
    uploaded_features (files w !! path) = Some features /\
    let n := length (List.filter (counts_for type) features) in
    (n = 0%nat ->
     fst (get_area type (snd run))
     = inr (Response 404 (ErrorBody ("No features found with type '" ++ type ++ "'")))) /\
    (n <> 0%nat ->
     exists area,
       fst (get_area type (snd run))
       = inr (Response 200
                (AreaBody type area (PrimFloat.div area 10000%float) (Z.of_nat n)))).
Proof.
  intros path run Hresp Hstatus. subst run.
  destruct (post_upload_spec filename w) as (r & w' & evs & Hrun & _ & _ & Hcases).
  fold path in Hcases. rewrite Hrun in Hresp |- *. cbn [fst snd] in *.
  injection Hresp as ->. intros Hok.
  destruct Hcases as [(features & inner & Hup & _ & -> & Hdb & _)
                     | (e & w1 & ok & inner & _ & -> & _)]; [ | discriminate].
  exists features. split; [exact Hup | ]. cbv zeta.
  rewrite (get_area_ok type w' Hok). cbv zeta.
  rewrite Hdb. unfold current, replacement. cbn [txn landuse].
  rewrite matching_new_rows.
  split; intros Hn.
  - now rewrite Hn.
  - destruct (length (List.filter (counts_for type) features)); [contradiction | ].
    eexists. reflexivity.
Qed.

Lemma firstn_add {A : Type} (a b : nat) (l : list A) :
  firstn (a + b) l = (firstn a l ++ firstn b (skipn a l))%list.
Proof.
  revert l. induction a as [ | a IH]; intros l; [reflexivity | ].
  destruct l as [ | x l]; cbn [Nat.add firstn skipn app].
  - now rewrite firstn_nil.
  - now rewrite IH.
Qed.

(** Two consecutive pages make the page of their joint size. *)
Lemma page_add (l1 l2 o : Z) (t : table) :
  0 <= l1 -> 0 <= l2 -> 0 <= o ->
  page (l1 + l2) o t = (page l1 o t ++ page l2 (o + l1) t)%list.
Proof.
  intros H1 H2 Ho. unfold page.
  rewrite Z2Nat.inj_add by assumption. rewrite firstn_add, skipn_skipn.
  rewrite (Z2Nat.inj_add o l1) by assumption.
  do 3 f_equal. lia.
Qed.

Lemma get_land_use_db (ql qo : option qval) (w : world) :
  db (snd (get_land_use ql qo w)) = db w.
Proof.
  pose proof (pool_query_select (SELECT_geojson None (page_offset qo) (page_limit ql)) w
                (exec_select_geojson None _ _)) as (H & _).
  unfold get_land_use. rewrite or_default_limit, or_default_offset.
  unfold try_catch, bind. destruct (pool_query _ w) as [[e | r] w1]; cbn in *; [exact H | ].
  destruct (geojson_of r); cbn; exact H.
Qed.

Lemma get_land_use_page (ql qo : option qval) (w : world) :
  next_ok w -> 0 <= page_limit ql -> 0 <= page_offset qo ->
  fst (get_land_use ql qo w)
  = inr (Response 200
           (FeatureCollection (page (page_limit ql) (page_offset qo) (current (db w))))).
Proof.
  intros Hok Hl Ho. apply get_land_use_ok; [exact Hok | ]. unfold select_page, page.
  destruct (Z.ltb_spec (page_offset qo) 0); [lia | ].
  destruct (Z.ltb_spec (page_limit ql) 0); [lia | ]. reflexivity.
Qed.

(** X16.  Paging loses and repeats nothing.  If a second land-use request
    starts where the first one stopped (its offset is the first offset plus
    the first limit), the features of the two answers, one after the other,
    are exactly the features that a single request with the first offset and
    the sum of the two limits gets. *)
Theorem consecutive_pages_compose (w : world) (qa oa qb ob qc : option qval) :
  let w1 := snd (get_land_use qa oa w) in
  page_offset ob = page_offset oa + page_limit qa ->
  page_limit qc = page_limit qa + page_limit qb ->
  0 <= page_offset oa -> 0 <= page_limit qa -> 0 <= page_limit qb ->
  next_ok w -> next_ok w1 ->
  exists first second,
    fst (get_land_use qa oa w) = inr (Response 200 (FeatureCollection first)) /\
    fst (get_land_use qb ob w1) = inr (Response 200 (FeatureCollection second)) /\
    fst (get_land_use qc oa w)
    = inr (Response 200 (FeatureCollection (first ++ second)%list)).
Proof.
  intros w1 Hoff Hlim Ho Ha Hb Hok Hok1.
  exists (page (page_limit qa) (page_offset oa) (current (db w))),
         (page (page_limit qb) (page_offset ob) (current (db w))).
  split; [apply get_land_use_page; assumption | ].
  split.
  - rewrite get_land_use_page by (try assumption; lia).
    unfold w1. now rewrite get_land_use_db.
  - rewrite get_land_use_page by (try assumption; lia).
    rewrite Hlim, Hoff, page_add by assumption. reflexivity.
Qed.

End Server.

(* ===================================================================== *)
(** ** Concrete runs *)
(* ===================================================================== *)

Local Notation "'upload_u1'" :=
  (post_upload "/srv" text_of_param flat_area (Some "u1")).

(** A [null] in the features array makes the loop body throw. *)
Example null_feature_throws :
  batch_forEach [forest; JNull] []
  = inl (Error "Cannot read properties of null (reading 'geometry')").
Proof. reflexivity. Qed.

(** Five hundred skipped features followed by one kept feature: the first
    batch sends nothing and adds nothing, the second adds its size. *)
Example two_batches :
  let w := server [] (inr (collection (repeat unlabeled 500 ++ [forest]))) in
  fst (upload_u1 w)
  = inr (Response 200
           (MessageBody "GeoJSON uploaded and database updated successfully! Inserted 1 features."))
  /\ map ev_statement (log (snd (upload_u1 w)))
     = [BEGIN; DELETE_FROM_landuse;
        INSERT_INTO_landuse [(JSON_stringify polygon, JStr "Forest")]; COMMIT].
Proof. vm_compute. split; reflexivity. Qed.

(** Three features, one of them without a label: two rows are inserted and
    the message counts three. *)
Example three_features_two_rows :
  let w := server [] (inr (collection [forest; unlabeled; forest])) in
  fst (upload_u1 w)
  = inr (Response 200
           (MessageBody "GeoJSON uploaded and database updated successfully! Inserted 3 features."))
  /\ landuse (db (snd (upload_u1 w)))
     = [Row 8 (Some (JSON_stringify polygon)) (Some "Forest");
        Row 9 (Some (JSON_stringify polygon)) (Some "Forest")].
Proof. vm_compute. split; reflexivity. Qed.



(** C2, the claim as stated fails three times: a feature with a geometry
    and an empty label has both fields non-null and is skipped; a skipped
    feature that shares its batch with a kept one is counted in the message;
    and a feature with a geometry and a label that shares its batch with a
    [null] entry contributes no row, because the loop body throws at the
    [null] and no [INSERT] is sent. *)
Lemma upload_skip_rule_counterexample :
  (non_null (geometry_of blank_label) = true /\
   non_null (type_of blank_label) = true /\
   feature_params blank_label = inr None) /\
  (let w := server [] (inr (collection [forest; unlabeled])) in
   feature_params unlabeled = inr None /\
   length (landuse (db (snd (upload_u1 w)))) = 1%nat /\
   fst (upload_u1 w)
   = inr (Response 200
            (MessageBody "GeoJSON uploaded and database updated successfully! Inserted 2 features."))) /\
  (let w := server [] (inr (collection [forest; JNull])) in
   insertable forest = true /\
   batch_forEach [forest; JNull] []
   = inl (Error "Cannot read properties of null (reading 'geometry')") /\
   map ev_statement (log (snd (upload_u1 w))) = [BEGIN; DELETE_FROM_landuse; ROLLBACK] /\
   landuse (db (snd (upload_u1 w))) = old_rows).
Proof. vm_compute. repeat split; reflexivity. Qed.

(** C2 at a concrete batch. *)
Lemma upload_skip_rule_witness :
  let batch := [forest; unlabeled; blank_label; no_geometry; JNum 3; forest] in
  Forall (fun f => f <> JNull) batch /\
  batch_forEach batch [] = inr (kept batch) /\
  length (kept batch) = 2%nat.
Proof.
  intros batch.
  assert (Forall (fun f => f <> JNull) batch) as H
      by (repeat constructor; discriminate).
  split; [exact H | ].
  destruct (upload_skip_rule batch H) as (Hrun & Hlen & _).
  split; [exact Hrun | exact Hlen].
Defined.

(** C3 at the three-feature upload. *)
Lemma upload_reported_count_witness :
  let w := server [] (inr (collection [forest; unlabeled; forest])) in
  let resp :=
    Response 200
      (MessageBody "GeoJSON uploaded and database updated successfully! Inserted 3 features.") in
  fst (upload_u1 w) = inr resp /\
  status resp = 200 /\
  exists features,
    uploaded_features (files w !! "/srv/uploads/u1") = Some features /\
    body resp = MessageBody (success_message (reported_count features)).
Proof.
  intros w resp.
  assert (fst (upload_u1 w) = inr resp) as H by (vm_compute; reflexivity).
  split; [exact H | ]. split; [reflexivity | ].
  destruct (upload_reported_count "/srv" text_of_param flat_area w "u1" resp H eq_refl)
    as (features & Hup & Hbody & _).
  exists features. split; [exact Hup | exact Hbody].
Defined.

(** C4, the claim as stated fails: with [limit=0] the page holds two rows,
    more than the limit; and with a failing database the status is 500. *)
Lemma land_use_pagination_counterexample :
  (fst (get_land_use text_of_param flat_area (Some (QStr "0")) (Some (QStr "1"))
                     (server [] (inl (Error ""))))
   = inr (Response 200
            (FeatureCollection [Row 5 (Some "g5") (Some "Water");
                                Row 7 (Some "g7") (Some "Forest")]))) /\
  (fst (get_land_use text_of_param flat_area (Some (QStr "10")) None
                     (server [Some "connection refused"] (inl (Error ""))))
   = inr (Response 500 (ErrorBody "Database error fetching land use"))).
Proof. vm_compute. split; reflexivity. Qed.

(** C4 at [?limit=2] without an offset. *)
Lemma land_use_pagination_witness :
  let w := server [] (inl (Error "")) in
  next_ok w /\ 0 <= page_limit (Some (QStr "2")) /\ 0 <= page_offset None /\
  fst (get_land_use text_of_param flat_area (Some (QStr "2")) None w)
  = inr (Response 200
           (FeatureCollection [Row 3 (Some "g3") (Some "forest");
                               Row 5 (Some "g5") (Some "Water")])).
Proof.
  intros w.
  assert (next_ok w) as H1 by reflexivity.
  assert (0 <= page_limit (Some (QStr "2"))) as H2 by (vm_compute; discriminate).
  assert (0 <= page_offset None) as H3 by (vm_compute; discriminate).
  split; [exact H1 | ]. split; [exact H2 | ]. split; [exact H3 | ].
  destruct (land_use_pagination text_of_param flat_area w (Some (QStr "2")) None H1 H2 H3)
    as (features & Hresp & Hfeatures & _).
  rewrite Hresp, Hfeatures. reflexivity.
Defined.

(** C5 at the two forest rows of the table. *)
Lemma area_contract_witness :
  let w := server [] (inl (Error "")) in
  next_ok w /\
  fst (get_area text_of_param flat_area "FOREST" w)
  = inr (Response 200 (AreaBody "FOREST" 30000%float 3%float 2)) /\
  fst (get_area text_of_param flat_area "meadow" w)
  = inr (Response 404 (ErrorBody "No features found with type 'meadow'")).
Proof.
  intros w. assert (next_ok w) as H by reflexivity.
  split; [exact H | ]. split.
  - rewrite (proj2 (area_contract text_of_param flat_area w "FOREST" H))
      by (vm_compute; discriminate).
    vm_compute. reflexivity.
  - rewrite (proj1 (area_contract text_of_param flat_area w "meadow" H))
      by reflexivity.
    reflexivity.
Defined.

(** The guard [total_area_m2 || 0] at work: a category whose only row has
    no geometry has a [NULL] sum, and areas that are not numbers have a sum
    that is not a number; both are sent as zero, with the count of rows. *)
Example area_without_geometry :
  let w := World (Database [Row 1 None (Some "Park")] None 2) [] [] ∅ in
  fst (get_area text_of_param flat_area "park" w)
  = inr (Response 200 (AreaBody "park" 0%float 0%float 1)).
Proof. vm_compute. reflexivity. Qed.

Example area_not_a_number :
  let w := server [] (inl (Error "")) in
  fst (get_area text_of_param (fun _ => PrimFloat.nan) "forest" w)
  = inr (Response 200 (AreaBody "forest" 0%float 0%float 2)).
Proof. vm_compute. reflexivity. Qed.

(** C6 at the three spellings of the example. *)
Lemma category_case_insensitive_witness :
  differ_only_in_case "Residential" "RESIDENTIAL" = true /\
  differ_only_in_case "Residential" "residential" = true /\
  (forall tbl, matching "Residential" tbl = matching "RESIDENTIAL" tbl) /\
  (forall tbl, matching "Residential" tbl = matching "residential" tbl).
Proof.
  assert (differ_only_in_case "Residential" "RESIDENTIAL" = true) as H1 by reflexivity.
  assert (differ_only_in_case "Residential" "residential" = true) as H2 by reflexivity.
  split; [exact H1 | ]. split; [exact H2 | ]. split.
  - exact (proj1 (category_case_insensitive text_of_param flat_area _ _ H1)).
  - exact (proj1 (category_case_insensitive text_of_param flat_area _ _ H2)).
Defined.

(** C7, the claim as stated fails: the query of GET /api/land_use rejects
    with "connection refused", and the 500 carries the fixed text of the
    route, not the message of the error. *)
Lemma database_error_responses_counterexample :
  let w := server [Some "connection refused"] (inl (Error "")) in
  fst (pool_query text_of_param flat_area (SELECT_geojson None 0 1000) w)
  = inl (Error "connection refused") /\
  fst (get_land_use text_of_param flat_area None None w)
  = inr (Response 500 (ErrorBody "Database error fetching land use")) /\
  "Database error fetching land use" <> "connection refused".
Proof. vm_compute. repeat split; try reflexivity. discriminate. Qed.

(** C7 at a rejected query of each read route and a rejected [BEGIN]. *)
Lemma database_error_responses_witness :
  let w := server [Some "connection refused"] (inr (collection [forest])) in
  fst (get_land_use text_of_param flat_area None None w)
  = inr (Response 500 (ErrorBody "Database error fetching land use")) /\
  fst (get_area text_of_param flat_area "forest" w)
  = inr (Response 500 (ErrorBody "Database error calculating area")) /\
  fst (upload_u1 w) = inr (Response 500 (ErrorBody "connection refused")).
Proof.
  intros w.
  destruct (database_error_responses "/srv" text_of_param flat_area w)
    as (Hland & _ & Harea & Hupload).
  split; [apply (Hland None None (Error "connection refused")); reflexivity | ].
  split; [apply (Harea "forest" (Error "connection refused")); reflexivity | ].
  apply (Hupload "u1" (Error "connection refused")
                 (snd (upload_try text_of_param flat_area "/srv/uploads/u1" w))).
  vm_compute. reflexivity.
Defined.

(** C9 at an upload whose three features are all skipped. *)
Lemma upload_all_skipped_witness :
  let w := server [] (inr (collection [unlabeled; no_geometry; JObj []])) in
  let features := [unlabeled; no_geometry; JObj []] in
  uploaded_features (files w !! "/srv/uploads/u1") = Some features /\
  Forall (fun f => f <> JNull) features /\
  Forall (fun f => non_null (geometry_of f) && non_null (type_of f) = false) features /\
  no_fault w /\
  fst (upload_u1 w)
  = inr (Response 200
           (MessageBody "GeoJSON uploaded and database updated successfully! Inserted 0 features.")) /\
  landuse (db (snd (upload_u1 w))) = [].
Proof.
  intros w features.
  assert (uploaded_features (files w !! "/srv/uploads/u1") = Some features) as H1
      by (vm_compute; reflexivity).
  assert (Forall (fun f => f <> JNull) features) as H2
      by (repeat constructor; discriminate).
  assert (Forall (fun f => non_null (geometry_of f) && non_null (type_of f) = false)
                 features) as H3 by (repeat constructor).
  assert (no_fault w) as H4 by constructor.
  split; [exact H1 | ]. split; [exact H2 | ]. split; [exact H3 | ]. split; [exact H4 | ].
  destruct (upload_all_skipped "/srv" text_of_param flat_area w "u1" features H1 H2 H3 H4)
    as (Hresp & Hland & _).
  split; [exact Hresp | exact Hland].
Defined.

(** C10 at the feature with an empty label. *)
Lemma falsy_label_skipped_witness :
  type_of blank_label = Some (JStr "") /\
  feature_params blank_label = inr None /\
  feature_params (without_label blank_label) = inr None.
Proof.
  assert (type_of blank_label = Some (JStr "")) as H by reflexivity.
  split; [exact H | ].
  destruct (proj1 (falsy_label_skipped blank_label) (JStr "") H (or_introl eq_refl))
    as (Hskip & _ & Habsent).
  split; [exact Hskip | exact Habsent].
Defined.

(* ===================================================================== *)
(** ** Concrete runs of the further properties *)
(* ===================================================================== *)

(** X2 at an upload next to a stored boundary of the local level. *)
Lemma upload_keeps_boundaries_witness :
  let w := World (Database old_rows None 8) [] []
                 (<["/srv/data/local.geojson" := inr (collection [forest])]>
                    (<["/srv/uploads/u1" := inr (collection [unlabeled])]> ∅)) in
  flat_name "u1" = true /\
  fst (get_boundary "/srv" local (snd (upload_u1 w)))
  = inr (JsonResponse 200 (collection [forest])).
Proof.
  intros w. assert (flat_name "u1" = true) as H by reflexivity.
  split; [exact H | ].
  rewrite (proj2 (upload_keeps_boundaries "/srv" text_of_param flat_area w "u1" local H)).
  vm_compute. reflexivity.
Defined.

(** X4 at the two forest rows: a page from offset 0 and a page from
    offset 2, where nothing is left although forest rows exist. *)
Lemma filter_contract_witness :
  let w := server [] (inl (Error "")) in
  next_ok w /\ 0 <= page_limit None /\ 0 <= page_offset (Some (QStr "2")) /\
  fst (get_filter text_of_param flat_area "FOREST" None None w)
  = inr (Response 200
           (FeatureCollection [Row 3 (Some "g3") (Some "forest");
                               Row 7 (Some "g7") (Some "Forest")])) /\
  fst (get_filter text_of_param flat_area "FOREST" None (Some (QStr "2")) w)
  = inr (Response 404 (ErrorBody "No features found with type 'FOREST'")).
Proof.
  intros w.
  assert (next_ok w) as H1 by reflexivity.
  assert (0 <= page_limit None) as H2 by (vm_compute; discriminate).
  assert (0 <= page_offset None) as H3 by (vm_compute; discriminate).
  assert (0 <= page_offset (Some (QStr "2"))) as H4 by (vm_compute; discriminate).
  split; [exact H1 | ]. split; [exact H2 | ]. split; [exact H4 | ]. split.
  - destruct (filter_contract text_of_param flat_area w "FOREST" None None H1 H2 H3)
      as (_ & _ & _ & Hfound).
    destruct Hfound as [_ ->]; [vm_compute; lia | ]. reflexivity.
  - destruct (filter_contract text_of_param flat_area w "FOREST" None (Some (QStr "2"))
                              H1 H2 H4) as (_ & _ & Hnone & _).
    apply Hnone. vm_compute. lia.
Defined.

(** X5 at [?limit=-5]. *)
Lemma negative_page_rejected_witness :
  let w := server [] (inl (Error "")) in
  page_limit (Some (QStr "-5")) < 0 /\
  fst (get_land_use text_of_param flat_area (Some (QStr "-5")) None w)
  = inr (Response 500 (ErrorBody "Database error fetching land use")).
Proof.
  intros w.
  assert (page_limit (Some (QStr "-5")) < 0) as H by (vm_compute; reflexivity).
  split; [exact H | ].
  exact (proj1 (negative_page_rejected text_of_param flat_area w "forest"
                  (Some (QStr "-5")) None (or_introl H))).
Defined.

(** X9 at a file that holds a Feature instead of a FeatureCollection. *)
Lemma upload_refuses_invalid_file_witness :
  let w := server [] (inr forest) in
  (forall data, files w !! "/srv/uploads/u1" = Some (inr data) ->
                well_formed data = false) /\
  fst (upload_u1 w) = inr (Response 500 (ErrorBody "Invalid GeoJSON format")) /\
  landuse (db (snd (upload_u1 w))) = old_rows.
Proof.
  intros w.
  assert (forall data, files w !! "/srv/uploads/u1" = Some (inr data) ->
                       well_formed data = false) as H.
  { intros data Hdata. vm_compute in Hdata. injection Hdata as <-. reflexivity. }
  split; [exact H | ].
  destruct (upload_refuses_invalid_file "/srv" text_of_param flat_area w "u1" H)
    as (_ & Hland & Hresp).
  split; [exact Hresp | exact Hland].
Defined.

(** X10 at the three-feature upload. *)
Lemma healthy_upload_succeeds_witness :
  let w := server [] (inr (collection [forest; unlabeled; forest])) in
  let features := [forest; unlabeled; forest] in
  uploaded_features (files w !! "/srv/uploads/u1") = Some features /\
  Forall (fun f => f <> JNull) features /\
  no_fault w /\
  length (landuse (db (snd (upload_u1 w)))) = 2%nat /\
  txn (db (snd (upload_u1 w))) = None.
Proof.
  intros w features.
  assert (uploaded_features (files w !! "/srv/uploads/u1") = Some features) as H1
      by (vm_compute; reflexivity).
  assert (Forall (fun f => f <> JNull) features) as H2
      by (repeat constructor; discriminate).
  assert (no_fault w) as H3 by constructor.
  split; [exact H1 | ]. split; [exact H2 | ]. split; [exact H3 | ].
  destruct (healthy_upload_succeeds "/srv" text_of_param flat_area w "u1" features H1 H2 H3)
    as (_ & _ & Htxn & Hlen).
  split; [exact Hlen | exact Htxn].
Defined.

(** X11 at an upload with a [null] after a feature that is kept. *)
Lemma null_feature_aborts_upload_witness :
  let w := server [] (inr (collection [forest; JNull])) in
  uploaded_features (files w !! "/srv/uploads/u1") = Some [forest; JNull] /\
  In JNull [forest; JNull] /\
  no_fault w /\
  fst (upload_u1 w)
  = inr (Response 500
           (ErrorBody "Cannot read properties of null (reading 'geometry')")) /\
  landuse (db (snd (upload_u1 w))) = old_rows.
Proof.
  intros w.
  assert (uploaded_features (files w !! "/srv/uploads/u1") = Some [forest; JNull]) as H1
      by (vm_compute; reflexivity).
  assert (In JNull [forest; JNull]) as H2 by (right; left; reflexivity).
  assert (no_fault w) as H3 by constructor.
  split; [exact H1 | ]. split; [exact H2 | ]. split; [exact H3 | ].
  destruct (null_feature_aborts_upload "/srv" text_of_param flat_area w "u1" _ H1 H2)
    as (_ & Hland & Hresp).
  split; [exact (Hresp H3) | exact Hland].
Defined.

(** X13 at the three-feature upload: the new identifiers are 8 and 9. *)
Lemma upload_replaces_table_witness :
  let w := server [] (inr (collection [forest; unlabeled; forest])) in
  let resp :=
    Response 200
      (MessageBody "GeoJSON uploaded and database updated successfully! Inserted 3 features.") in
  fst (upload_u1 w) = inr resp /\
  status resp = 200 /\
  exists features,
    uploaded_features (files w !! "/srv/uploads/u1") = Some features /\
    map row_id (landuse (db (snd (upload_u1 w))))
    = map (fun k => 8 + Z.of_nat k) (seq 0 (length (List.filter insertable features))).
Proof.
  intros w resp.
  assert (fst (upload_u1 w) = inr resp) as H by (vm_compute; reflexivity).
  split; [exact H | ]. split; [reflexivity | ].
  destruct (upload_replaces_table "/srv" text_of_param flat_area w "u1" resp H eq_refl)
    as (features & Hup & _ & Hids & _).
  exists features. split; [exact Hup | exact Hids].
Defined.

(** X14 at the three-feature upload followed by [?limit=10]. *)
Lemma upload_then_land_use_witness :
  let w := server [] (inr (collection [forest; unlabeled; forest])) in
  let resp :=
    Response 200
      (MessageBody "GeoJSON uploaded and database updated successfully! Inserted 3 features.") in
  fst (upload_u1 w) = inr resp /\
  status resp = 200 /\
  next_ok (snd (upload_u1 w)) /\
  0 <= page_limit (Some (QStr "10")) /\ 0 <= page_offset None /\
  fst (get_land_use text_of_param flat_area (Some (QStr "10")) None (snd (upload_u1 w)))
  = inr (Response 200
           (FeatureCollection
              [Row 8 (Some (JSON_stringify polygon)) (Some "Forest");
               Row 9 (Some (JSON_stringify polygon)) (Some "Forest")])).
Proof.
  intros w resp.
  assert (fst (upload_u1 w) = inr resp) as H by (vm_compute; reflexivity).
  assert (next_ok (snd (upload_u1 w))) as Hok by (vm_compute; reflexivity).
  assert (0 <= page_limit (Some (QStr "10"))) as Hl by (vm_compute; discriminate).
  assert (0 <= page_offset None) as Ho by (vm_compute; discriminate).
  split; [exact H | ]. split; [reflexivity | ]. split; [exact Hok | ].
  split; [exact Hl | ]. split; [exact Ho | ].
  destruct (upload_then_land_use "/srv" text_of_param flat_area w "u1" resp
                                 (Some (QStr "10")) None H eq_refl Hok Hl Ho)
    as (features & _ & _ & Hresp).
  rewrite Hresp. vm_compute. reflexivity.
Defined.

(** X15 at the three-feature upload followed by [/api/area/FOREST]. *)
Lemma upload_then_area_witness :
  let w := server [] (inr (collection [forest; unlabeled; forest])) in
  let resp :=
    Response 200
      (MessageBody "GeoJSON uploaded and database updated successfully! Inserted 3 features.") in
  fst (upload_u1 w) = inr resp /\
  status resp = 200 /\
  next_ok (snd (upload_u1 w)) /\
  exists features,
    uploaded_features (files w !! "/srv/uploads/u1") = Some features /\
    length (List.filter (counts_for text_of_param "FOREST") features) = 2%nat.
Proof.
  intros w resp.
  assert (fst (upload_u1 w) = inr resp) as H by (vm_compute; reflexivity).
  assert (next_ok (snd (upload_u1 w))) as Hok by (vm_compute; reflexivity).
  split; [exact H | ]. split; [reflexivity | ]. split; [exact Hok | ].
  destruct (upload_then_area "/srv" text_of_param flat_area w "u1" resp "FOREST"
                             H eq_refl Hok) as (features & Hup & _).
  exists features. split; [exact Hup | ].
  assert (Some features = Some [forest; unlabeled; forest]) as E
      by (rewrite <- Hup; vm_compute; reflexivity).
  injection E as ->. reflexivity.
Defined.

(** X16 at a page of one row followed by a page of two rows. *)
Lemma consecutive_pages_compose_witness :
  let w := server [] (inl (Error "")) in
  let one := Some (QStr "1") in
  let two := Some (QStr "2") in
  let three := Some (QStr "3") in
  page_offset one = page_offset None + page_limit one /\
  page_limit three = page_limit one + page_limit two /\
  exists first second,
    fst (get_land_use text_of_param flat_area one None w)
    = inr (Response 200 (FeatureCollection first)) /\
    fst (get_land_use text_of_param flat_area three None w)
    = inr (Response 200 (FeatureCollection (first ++ second)%list)).
Proof.
  intros w one two three.
  assert (page_offset one = page_offset None + page_limit one) as H1 by reflexivity.
  assert (page_limit three = page_limit one + page_limit two) as H2 by reflexivity.
  split; [exact H1 | ]. split; [exact H2 | ].
  destruct (consecutive_pages_compose text_of_param flat_area w one None two one three H1 H2)
    as (first & second & Hfirst & _ & Hboth);
    try (vm_compute; discriminate); try reflexivity.
  exists first, second. split; [exact Hfirst | exact Hboth].
Defined.

(** X6 at [?limit=0&offset=9007199254740992] and at [?limit=25&offset=50]
    on the filter route. *)
Lemma page_parameters_round_trip_witness :
  let w := server [] (inl (Error "")) in
  (Z.abs 0 <= 2 ^ 53 /\ Z.abs 9007199254740992 <= 2 ^ 53 /\
   only_asked (SELECT_geojson None 9007199254740992 1000) w
     (snd (get_land_use text_of_param flat_area
             (Some (QStr "0")) (Some (QStr "9007199254740992")) w))) /\
  (Z.abs 25 <= 2 ^ 53 /\ Z.abs 50 <= 2 ^ 53 /\
   only_asked (SELECT_geojson (Some "forest") 50 25) w
     (snd (get_filter text_of_param flat_area "forest"
             (Some (QStr "25")) (Some (QStr "50")) w))).
Proof.
  intros w.
  assert (Z.abs 0 <= 2 ^ 53) as H0 by (vm_compute; discriminate).
  assert (Z.abs 9007199254740992 <= 2 ^ 53) as H1 by (vm_compute; discriminate).
  assert (Z.abs 25 <= 2 ^ 53) as H2 by (vm_compute; discriminate).
  assert (Z.abs 50 <= 2 ^ 53) as H3 by (vm_compute; discriminate).
  split; (split; [assumption | split; [assumption | ]]).
  - exact (proj1 (page_parameters_round_trip text_of_param flat_area w ""
                    0 9007199254740992 H0 H1)).
  - exact (proj2 (page_parameters_round_trip text_of_param flat_area w "forest"
                    25 50 H2 H3)).
Defined.

(** X12 at an upload of a kept, a skipped and a kept feature: two rows, and
    a message that counts three. *)
Lemma reported_count_bounds_witness :
  let w := server [] (inr (collection [forest; unlabeled; forest])) in
  let resp :=
    Response 200
      (MessageBody "GeoJSON uploaded and database updated successfully! Inserted 3 features.") in
  fst (upload_u1 w) = inr resp /\
  status resp = 200 /\
  exists (features : list json) (insertCount : nat),
    body resp = MessageBody (success_message insertCount) /\
    (length (landuse (db (snd (upload_u1 w)))) <= insertCount <= length features)%nat.
Proof.
  intros w resp.
  assert (fst (upload_u1 w) = inr resp) as H1 by (vm_compute; reflexivity).
  assert (status resp = 200) as H2 by reflexivity.
  split; [exact H1 | ]. split; [exact H2 | ].
  destruct (reported_count_bounds "/srv" text_of_param flat_area w "u1" resp H1 H2)
    as (features & insertCount & _ & Hbody & Hbound & _).
  exists features, insertCount. split; [exact Hbody | exact Hbound].
Defined.
